(** * PromptLab: a shallow embedding of the backend and its properties

    The development follows the four Python modules of [backend/app]:

    - [models.py]  : the pydantic records and their field constraints;
    - [storage.py] : the in-memory [Storage] class (two dictionaries);
    - [utils.py]   : sorting, filtering and searching lists of prompts,
                     the content check and the template variables;
    - [api.py]     : the request handlers, which read and mutate the
                     global [storage] object and raise [HTTPException].

    Modelling choices.

    - A Python [str] is a [string]; each character is one [ascii], so the
      model covers the first 256 code points, where [str.lower] acts on
      each character separately.
      Whitespace ([str.strip]) and word characters (the class [\w]) are
      those of the first 256 code points.
    - A [datetime] is an integer number of clock ticks ([Z]).
    - A [Dict[str, _]] is a [gmap string _].  The iteration order of a
      dictionary (insertion order in Python) is abstracted to the order of
      [map_to_list]; no statement below depends on it.
    - [uuid4()] and [datetime.utcnow()] are inputs of the handlers that
      call them: the fresh identifier and the clock readings are explicit
      arguments.
    - A handler is a function from the store to an outcome (a value or a
      raised exception) and the store it leaves behind; mutations made
      before an exception is raised are kept, as in Python.
    - The [Field] constraints are boolean checks.  The constructors of
      [Prompt] and [Collection] run them and raise [ValidationError]; the
      request models ([PromptCreate], [PromptUpdate], [PromptPatch]) are
      plain records, and a statement that needs a well-formed request says
      so with [PromptBase_valid] or [patch_within_limits]. *)

From Stdlib Require Import ZArith String Ascii List Permutation Lia.
From stdpp Require Import gmap strings list fin_maps.

Local Open Scope string_scope.
Local Open Scope Z_scope.

(** ** Python helpers *)

(** Truthiness of an [Optional[str]]: [None] and the empty string are falsy. *)
Definition truthy (v : option string) : bool :=
  match v with
  | Some s => negb (String.eqb s "")
  | None => false
  end.

(** [len(s)] as an integer. *)
Definition len (s : string) : Z := Z.of_nat (String.length s).

(** ** models.py *)

Module models.

Definition datetime := Z.

Record Prompt := mkPrompt {
  p_title : string;
  p_content : string;
  p_description : option string;
  p_collection_id : option string;
  p_id : string;
  p_created_at : datetime;
  p_updated_at : datetime
}.

(** [PromptBase], and so [PromptCreate] and [PromptUpdate]. *)
Record PromptBase := mkPromptBase {
  pb_title : string;
  pb_content : string;
  pb_description : option string;
  pb_collection_id : option string
}.

Definition PromptCreate := PromptBase.
Definition PromptUpdate := PromptBase.

(** A field of [PromptPatch]: left unset by the caller, or set, possibly
    to [None].  [dict(exclude_unset=True)] tells the two apart. *)
Inductive patch_field :=
| Unset
| Set_ (v : option string).

Record PromptPatch := mkPromptPatch {
  pp_title : patch_field;
  pp_content : patch_field;
  pp_description : patch_field;
  pp_collection_id : patch_field
}.

Record Collection := mkCollection {
  c_name : string;
  c_description : option string;
  c_id : string;
  c_created_at : datetime
}.

Record CollectionCreate := mkCollectionCreate {
  cc_name : string;
  cc_description : option string
}.

(** The [Field(...)] constraints. *)
Definition min_length (n : Z) (s : string) : bool := n <=? len s.
Definition max_length (n : Z) (s : string) : bool := len s <=? n.

Definition opt_check (chk : string -> bool) (v : option string) : bool :=
  match v with
  | Some s => chk s
  | None => true
  end.

Definition title_ok (s : string) : bool := min_length 1 s && max_length 200 s.
Definition content_ok (s : string) : bool := min_length 1 s.
Definition description_ok (v : option string) : bool := opt_check (max_length 500) v.
Definition name_ok (s : string) : bool := min_length 1 s && max_length 100 s.

(** The constraints of [PromptBase], inherited by [Prompt]. *)
Definition validate_PromptBase (title content : string) (description : option string) : bool :=
  title_ok title && content_ok content && description_ok description.

Definition PromptBase_valid (d : PromptBase) : bool :=
  validate_PromptBase (pb_title d) (pb_content d) (pb_description d).

Definition Prompt_valid (p : Prompt) : bool :=
  validate_PromptBase (p_title p) (p_content p) (p_description p).

Definition patch_check (chk : string -> bool) (f : patch_field) : bool :=
  match f with
  | Set_ (Some s) => chk s
  | _ => true
  end.

Definition PromptPatch_valid (d : PromptPatch) : bool :=
  patch_check title_ok (pp_title d)
  && patch_check content_ok (pp_content d)
  && patch_check (max_length 500) (pp_description d).

Definition CollectionCreate_valid (d : CollectionCreate) : bool :=
  name_ok (cc_name d) && description_ok (cc_description d).

Definition Collection_valid (c : Collection) : bool :=
  name_ok (c_name c) && description_ok (c_description c).

(** [Prompt(...)]: the constructor validates its arguments. *)
Definition Prompt_new (title content : string) (description collection_id : option string)
    (id : string) (created_at updated_at : datetime) : option Prompt :=
  if validate_PromptBase title content description
  then Some (mkPrompt title content description collection_id id created_at updated_at)
  else None.

(** [Collection(...)]. *)
Definition Collection_new (name : string) (description : option string)
    (id : string) (created_at : datetime) : option Collection :=
  if name_ok name && description_ok description
  then Some (mkCollection name description id created_at)
  else None.

End models.
Import models.

(** ** Outcomes and the handler monad *)

Inductive exn :=
| HTTPException (status_code : Z) (detail : string)
| ValidationError.

(** The two error signals of the specification, as the handlers raise them. *)
Definition NotFound (detail : string) : exn := HTTPException 404 detail.
Definition InvalidReference : exn := HTTPException 400 "Collection not found".

Inductive outcome (A : Type) :=
| Return (a : A)
| Raise (e : exn).
Arguments Return {A} a.
Arguments Raise {A} e.

(** ** storage.py *)

Record Storage := mkStorage {
  _prompts : gmap string Prompt;
  _collections : gmap string Collection
}.

Definition M (A : Type) : Type := Storage -> outcome A * Storage.

Definition ret {A} (a : A) : M A := fun s => (Return a, s).
Definition raise {A} (e : exn) : M A := fun s => (Raise e, s).
Definition bind {A B} (m : M A) (k : A -> M B) : M B :=
  fun s =>
    match m s with
    | (Return a, s') => k a s'
    | (Raise e, s') => (Raise e, s')
    end.

Notation "'let*' x ':=' m 'in' k" := (bind m (fun x => k))
  (at level 10, x name, m at level 100, k at level 200).

(** [for x in xs: body(x)] *)
Fixpoint for_each {A} (xs : list A) (body : A -> M unit) : M unit :=
  match xs with
  | [] => ret tt
  | x :: xs' => let* _ := body x in for_each xs' body
  end.

Module storage.

(** [Storage()] *)
Definition init : Storage := mkStorage ∅ ∅.

Definition create_prompt (prompt : Prompt) : M Prompt := fun s =>
  (Return prompt, mkStorage (<[p_id prompt := prompt]> (_prompts s)) (_collections s)).

Definition get_prompt (prompt_id : string) : M (option Prompt) := fun s =>
  (Return (_prompts s !! prompt_id), s).

(** The values come in the order of [map_to_list], which stands for the
    insertion order of the dictionary. *)
Definition get_all_prompts : M (list Prompt) := fun s =>
  (Return (map_to_list (_prompts s)).*2, s).

Definition update_prompt (prompt_id : string) (prompt : Prompt) : M (option Prompt) := fun s =>
  match _prompts s !! prompt_id with
  | None => (Return None, s)
  | Some _ =>
      (Return (Some prompt), mkStorage (<[prompt_id := prompt]> (_prompts s)) (_collections s))
  end.

Definition delete_prompt (prompt_id : string) : M bool := fun s =>
  match _prompts s !! prompt_id with
  | Some _ => (Return true, mkStorage (delete prompt_id (_prompts s)) (_collections s))
  | None => (Return false, s)
  end.

Definition create_collection (collection : Collection) : M Collection := fun s =>
  (Return collection,
   mkStorage (_prompts s) (<[c_id collection := collection]> (_collections s))).

Definition get_collection (collection_id : string) : M (option Collection) := fun s =>
  (Return (_collections s !! collection_id), s).

Definition get_all_collections : M (list Collection) := fun s =>
  (Return (map_to_list (_collections s)).*2, s).

Definition delete_collection (collection_id : string) : M bool := fun s =>
  match _collections s !! collection_id with
  | Some _ => (Return true, mkStorage (_prompts s) (delete collection_id (_collections s)))
  | None => (Return false, s)
  end.

(** [p.collection_id == collection_id] *)
Definition in_collection (collection_id : string) (p : Prompt) : bool :=
  bool_decide (p_collection_id p = Some collection_id).

Definition get_prompts_by_collection (collection_id : string) : M (list Prompt) := fun s =>
  (Return (List.filter (in_collection collection_id) (map_to_list (_prompts s)).*2), s).

Definition clear : M unit := fun _ => (Return tt, mkStorage ∅ ∅).

End storage.

(** ** utils.py *)

Module utils.

(** [str.lower] on one character of the alphabet of the model: the letters
    A to Z (65 to 90) and the accented capitals 192 to 214 and 216 to 222
    are replaced by the character 32 places further; the others stay. *)
Definition lower_char (c : ascii) : ascii :=
  let n := N_of_ascii c in
  if (((65 <=? n) && (n <=? 90)) || ((192 <=? n) && (n <=? 214)) ||
      ((216 <=? n) && (n <=? 222)))%N
  then ascii_of_N (n + 32) else c.

Fixpoint lower (s : string) : string :=
  match s with
  | EmptyString => EmptyString
  | String c s' => String (lower_char c) (lower s')
  end.

(** [hay.startswith(needle)] *)
Fixpoint startswith (needle hay : string) : bool :=
  match needle, hay with
  | EmptyString, _ => true
  | String a n', String b h' => Ascii.eqb a b && startswith n' h'
  | String _ _, EmptyString => false
  end.

(** [needle in hay], for strings: [needle] starts at some position of [hay]. *)
Fixpoint contains (needle hay : string) : bool :=
  startswith needle hay ||
  match hay with
  | EmptyString => false
  | String _ h' => contains needle h'
  end.

(** The built-in [sorted(xs, key=key, reverse=reverse)].  Python's sort is
    stable, and with [reverse=True] the list is reversed, sorted and
    reversed again, which keeps equal keys in their input order.  A
    stable sort has one possible result, computed here by insertion. *)
Section sorted.
Context {A : Type} (key : A -> Z).

Fixpoint insert_by_key (x : A) (l : list A) : list A :=
  match l with
  | [] => [x]
  | y :: l' => if key x <=? key y then x :: y :: l' else y :: insert_by_key x l'
  end.

Fixpoint stable_sort (l : list A) : list A :=
  match l with
  | [] => []
  | x :: l' => insert_by_key x (stable_sort l')
  end.

Definition sorted (l : list A) (reverse : bool) : list A :=
  if reverse then rev (stable_sort (rev l)) else stable_sort l.
End sorted.

Definition sort_prompts_by_date (prompts : list Prompt) (descending : bool) : list Prompt :=
  sorted p_created_at prompts descending.

Definition filter_prompts_by_collection (prompts : list Prompt) (collection_id : string)
    : list Prompt :=
  List.filter (fun p => bool_decide (p_collection_id p = Some collection_id)) prompts.

(** The condition of the comprehension in [search_prompts]:
    [query_lower in p.title.lower() or
     (p.description and query_lower in p.description.lower())]. *)
Definition search_keeps (query_lower : string) (p : Prompt) : bool :=
  contains query_lower (lower (p_title p)) ||
  (truthy (p_description p) &&
   match p_description p with
   | Some d => contains query_lower (lower d)
   | None => false
   end).

Definition search_prompts (prompts : list Prompt) (query : string) : list Prompt :=
  let query_lower := lower query in
  List.filter (search_keeps query_lower) prompts.

(** [c.isspace()], for the characters of the model: tab to carriage
    return, the four separators 28 to 31, the space, NEL and the no-break
    space. *)
Definition isspace (c : ascii) : bool :=
  let n := N_of_ascii c in
  (((9 <=? n) && (n <=? 13)) || ((28 <=? n) && (n <=? 32)) || (n =? 133) || (n =? 160))%N.

(** [s.lstrip()], [s.rstrip()] and [s.strip()]. *)
Fixpoint lstrip (s : string) : string :=
  match s with
  | EmptyString => EmptyString
  | String c s' => if isspace c then lstrip s' else s
  end.

Fixpoint rstrip (s : string) : string :=
  match s with
  | EmptyString => EmptyString
  | String c s' =>
      match rstrip s' with
      | EmptyString => if isspace c then EmptyString else String c EmptyString
      | String c' r => String c (String c' r)
      end
  end.

Definition strip (s : string) : string := rstrip (lstrip s).

Definition validate_prompt_content (content : string) : bool :=
  if String.eqb content "" || String.eqb (strip content) "" then false
  else 10 <=? len (strip content).

(** The class [\w] of [re] on [str], for the characters of the model: the
    ASCII letters and digits, the underscore, and the letters and numeric
    characters of the upper half (all but the multiplication and division
    signs from 192 on). *)
Definition isword (c : ascii) : bool :=
  let n := N_of_ascii c in
  (((48 <=? n) && (n <=? 57)) || ((65 <=? n) && (n <=? 90)) || (n =? 95) ||
   ((97 <=? n) && (n <=? 122)) || (n =? 170) || (n =? 178) || (n =? 179) ||
   (n =? 181) || (n =? 185) || (n =? 186) || ((188 <=? n) && (n <=? 190)) ||
   ((192 <=? n) && (n <=? 214)) || ((216 <=? n) && (n <=? 246)) || (248 <=? n))%N.

(** The longest run of word characters at the start of [s], and the rest. *)
Fixpoint span_word (s : string) : string * string :=
  match s with
  | EmptyString => (EmptyString, EmptyString)
  | String c s' =>
      if isword c
      then let (w, r) := span_word s' in (String c w, r)
      else (EmptyString, s)
  end.

(** The pattern [{{(\w+)}}] matched at the start of [s]; the result is the
    group.  The group is the longest run of word characters: after a
    shorter one the next character is a word character, not a brace. *)
Definition match_variable (s : string) : option string :=
  match s with
  | String "{" (String "{" s') =>
      let (w, r) := span_word s' in
      if negb (String.eqb w "") && startswith "}}" r then Some w else None
  | _ => None
  end.

(** [re.findall]: the matches are looked for from left to right and do not
    overlap.  [skip] is the number of characters of the last match that are
    still to be passed over. *)
Fixpoint findall_variables (skip : nat) (s : string) : list string :=
  match s with
  | EmptyString => []
  | String c s' =>
      match skip with
      | S k => findall_variables k s'
      | O =>
          match match_variable s with
          | Some w => w :: findall_variables (String.length w + 3) s'
          | None => findall_variables 0 s'
          end
      end
  end.

Definition extract_variables (content : string) : list string :=
  findall_variables 0 content.

End utils.

(** ** api.py *)

Module api.

Record PromptList := mkPromptList { prompts : list Prompt; pl_total : Z }.
Record CollectionList := mkCollectionList { collections : list Collection; cl_total : Z }.
Record HealthResponse := mkHealthResponse { status : string; version : string }.

(** [if v: body(v)] for an [Optional[str]]. *)
Definition if_truthy (v : option string) (body : string -> M unit) : M unit :=
  match v with
  | Some s => if truthy v then body s else ret tt
  | None => ret tt
  end.

(** [collection = storage.get_collection(cid)]
    [if not collection: raise HTTPException(400, "Collection not found")] *)
Definition require_collection (cid : string) : M unit :=
  let* collection := storage.get_collection cid in
  match collection with
  | None => raise (HTTPException 400 "Collection not found")
  | Some _ => ret tt
  end.

(** [__version__] is a constant of the package, passed in here. *)
Definition health_check (__version__ : string) : M HealthResponse :=
  ret (mkHealthResponse "healthy" __version__).

Definition list_prompts (collection_id search : option string) : M PromptList :=
  let* all := storage.get_all_prompts in
  let filtered :=
    match collection_id with
    | Some cid =>
        if truthy collection_id then utils.filter_prompts_by_collection all cid else all
    | None => all
    end in
  let found :=
    match search with
    | Some q => if truthy search then utils.search_prompts filtered q else filtered
    | None => filtered
    end in
  let ordered := utils.sort_prompts_by_date found true in
  ret (mkPromptList ordered (Z.of_nat (length ordered))).

Definition get_prompt (prompt_id : string) : M Prompt :=
  let* prompt := storage.get_prompt prompt_id in
  match prompt with
  | None => raise (HTTPException 404 "Prompt not found")
  | Some p => ret p
  end.

(** [new_id], [t_created] and [t_updated] are the results of the calls of
    [generate_id] and [get_current_time] made by the default factories of
    [Prompt], in field order. *)
Definition create_prompt (prompt_data : PromptCreate)
    (new_id : string) (t_created t_updated : datetime) : M Prompt :=
  let* _ := if_truthy (pb_collection_id prompt_data) require_collection in
  match Prompt_new (pb_title prompt_data) (pb_content prompt_data)
          (pb_description prompt_data) (pb_collection_id prompt_data)
          new_id t_created t_updated with
  | None => raise ValidationError
  | Some prompt => storage.create_prompt prompt
  end.

(** [now] is the result of [get_current_time()]. *)
Definition update_prompt (prompt_id : string) (prompt_data : PromptUpdate)
    (now : datetime) : M (option Prompt) :=
  let* existing := storage.get_prompt prompt_id in
  match existing with
  | None => raise (HTTPException 404 "Prompt not found")
  | Some existing =>
      let* _ := if_truthy (pb_collection_id prompt_data) require_collection in
      match Prompt_new (pb_title prompt_data) (pb_content prompt_data)
              (pb_description prompt_data) (pb_collection_id prompt_data)
              (p_id existing) (p_created_at existing) now with
      | None => raise ValidationError
      | Some updated_prompt => storage.update_prompt prompt_id updated_prompt
      end
  end.

(** The keys of [PromptPatch]. *)
Inductive field_name := F_title | F_content | F_description | F_collection_id.

Definition is_collection_id (f : field_name) : bool :=
  match f with F_collection_id => true | _ => false end.

(** [prompt_data.dict(exclude_unset=True)], with [getattr(prompt_data, field)]
    next to each key: the fields the caller has set, in declaration order. *)
Definition set_fields (prompt_data : PromptPatch) : list (field_name * option string) :=
  let item f v := match v with Unset => [] | Set_ x => [(f, x)] end in
  item F_title (pp_title prompt_data) ++ item F_content (pp_content prompt_data) ++
  item F_description (pp_description prompt_data) ++
  item F_collection_id (pp_collection_id prompt_data).

(** [update_data[field] = value], on the dictionary [existing.dict()], which
    has the keys of [Prompt] and is held in a record of that shape. *)
Definition set_item (update_data : Prompt) (field : field_name) (value : string) : Prompt :=
  match field with
  | F_title =>
      mkPrompt value (p_content update_data) (p_description update_data)
        (p_collection_id update_data) (p_id update_data)
        (p_created_at update_data) (p_updated_at update_data)
  | F_content =>
      mkPrompt (p_title update_data) value (p_description update_data)
        (p_collection_id update_data) (p_id update_data)
        (p_created_at update_data) (p_updated_at update_data)
  | F_description =>
      mkPrompt (p_title update_data) (p_content update_data) (Some value)
        (p_collection_id update_data) (p_id update_data)
        (p_created_at update_data) (p_updated_at update_data)
  | F_collection_id =>
      mkPrompt (p_title update_data) (p_content update_data) (p_description update_data)
        (Some value) (p_id update_data)
        (p_created_at update_data) (p_updated_at update_data)
  end.

(** The [for field in ...] loop of [patch_prompt].  On [None] neither test
    of the body holds. *)
Fixpoint patch_loop (fields : list (field_name * option string)) (update_data : Prompt)
    : M Prompt :=
  match fields with
  | [] => ret update_data
  | (field, None) :: rest => patch_loop rest update_data
  | (field, Some value) :: rest =>
      if negb (String.eqb value "") && negb (is_collection_id field)
      then patch_loop rest (set_item update_data field value)
      else if is_collection_id field && truthy (Some value)
      then
        let* _ := require_collection value in
        patch_loop rest (set_item update_data field value)
      else patch_loop rest update_data
  end.

(** [update_data['updated_at'] = now] *)
Definition set_updated_at (update_data : Prompt) (now : datetime) : Prompt :=
  mkPrompt (p_title update_data) (p_content update_data) (p_description update_data)
    (p_collection_id update_data) (p_id update_data) (p_created_at update_data) now.

(** [Prompt] built from the keys of [update_data]; the constructor validates. *)
Definition Prompt_of_dict (update_data : Prompt) : option Prompt :=
  Prompt_new (p_title update_data) (p_content update_data) (p_description update_data)
    (p_collection_id update_data) (p_id update_data)
    (p_created_at update_data) (p_updated_at update_data).

Definition patch_prompt (prompt_id : string) (prompt_data : PromptPatch)
    (now : datetime) : M (option Prompt) :=
  let* existing := storage.get_prompt prompt_id in
  match existing with
  | None => raise (HTTPException 404 "Prompt not found")
  | Some existing =>
      let* update_data := patch_loop (set_fields prompt_data) existing in
      match Prompt_of_dict (set_updated_at update_data now) with
      | None => raise ValidationError
      | Some updated_prompt => storage.update_prompt prompt_id updated_prompt
      end
  end.

Definition delete_prompt (prompt_id : string) : M unit :=
  let* deleted := storage.delete_prompt prompt_id in
  if negb deleted then raise (HTTPException 404 "Prompt not found") else ret tt.

Definition list_collections : M CollectionList :=
  let* all := storage.get_all_collections in
  ret (mkCollectionList all (Z.of_nat (length all))).

Definition get_collection (collection_id : string) : M Collection :=
  let* collection := storage.get_collection collection_id in
  match collection with
  | None => raise (HTTPException 404 "Collection not found")
  | Some c => ret c
  end.

Definition create_collection (collection_data : CollectionCreate)
    (new_id : string) (t_created : datetime) : M Collection :=
  match Collection_new (cc_name collection_data) (cc_description collection_data)
          new_id t_created with
  | None => raise ValidationError
  | Some collection => storage.create_collection collection
  end.

Definition delete_collection (collection_id : string) : M unit :=
  let* members := storage.get_prompts_by_collection collection_id in
  let* _ := for_each members
              (fun prompt => let* _ := storage.delete_prompt (p_id prompt) in ret tt) in
  let* deleted := storage.delete_collection collection_id in
  if negb deleted then raise (HTTPException 404 "Collection not found") else ret tt.

End api.

(** ** The service as a transition system *)

(** One request to the service, with the values its handler draws from the
    environment ([__version__], fresh identifiers, clock readings). *)
Inductive request :=
| HealthCheck (version : string)
| ListPrompts (collection_id search : option string)
| GetPrompt (prompt_id : string)
| CreatePrompt (prompt_data : PromptCreate) (new_id : string) (t_created t_updated : datetime)
| UpdatePrompt (prompt_id : string) (prompt_data : PromptUpdate) (now : datetime)
| PatchPrompt (prompt_id : string) (prompt_data : PromptPatch) (now : datetime)
| DeletePrompt (prompt_id : string)
| ListCollections
| GetCollection (collection_id : string)
| CreateCollection (collection_data : CollectionCreate) (new_id : string) (t_created : datetime)
| DeleteCollection (collection_id : string).

(** The store after a request has been handled, whether it succeeded or raised. *)
Definition handle (r : request) (s : Storage) : Storage :=
  match r with
  | HealthCheck v => snd (api.health_check v s)
  | ListPrompts c q => snd (api.list_prompts c q s)
  | GetPrompt i => snd (api.get_prompt i s)
  | CreatePrompt d i t1 t2 => snd (api.create_prompt d i t1 t2 s)
  | UpdatePrompt i d t => snd (api.update_prompt i d t s)
  | PatchPrompt i d t => snd (api.patch_prompt i d t s)
  | DeletePrompt i => snd (api.delete_prompt i s)
  | ListCollections => snd (api.list_collections s)
  | GetCollection i => snd (api.get_collection i s)
  | CreateCollection d i t => snd (api.create_collection d i t s)
  | DeleteCollection i => snd (api.delete_collection i s)
  end.

Fixpoint serve (rs : list request) (s : Storage) : Storage :=
  match rs with
  | [] => s
  | r :: rs' => serve rs' (handle r s)
  end.

(** The stores the service can be in: those reached from the empty store. *)
Definition reachable (s : Storage) : Prop :=
  exists rs, s = serve rs storage.init.

(** The clock readings a request carries, in the order they are taken.  A
    handler that raises before it calls [get_current_time] leaves its
    reading unused. *)
Definition clock_readings (r : request) : list datetime :=
  match r with
  | CreatePrompt _ _ t1 t2 => [t1; t2]
  | UpdatePrompt _ _ t => [t]
  | PatchPrompt _ _ t => [t]
  | CreateCollection _ _ t => [t]
  | _ => []
  end.

Definition clock_trace (rs : list request) : list datetime :=
  concat (List.map clock_readings rs).

(** A clock that never runs backwards: each reading is at least the one before. *)
Fixpoint nondecreasing (ts : list datetime) : Prop :=
  match ts with
  | [] => True
  | t :: ts' =>
      match ts' with
      | [] => True
      | t' :: _ => t <= t' /\ nondecreasing ts'
      end
  end.

(** ** Invariants of the store *)

(** Every entity is filed under its own [id]. *)
Definition keys_are_ids (s : Storage) : Prop :=
  (forall k p, _prompts s !! k = Some p -> p_id p = k) /\
  (forall k c, _collections s !! k = Some c -> c_id c = k).

(** Every stored prompt satisfies the field constraints of [Prompt]. *)
Definition prompts_valid (s : Storage) : Prop :=
  forall k p, _prompts s !! k = Some p -> Prompt_valid p = true.

(** A non-empty [collection_id] of a stored prompt names a stored collection. *)
Definition references_resolve (s : Storage) : Prop :=
  forall k p cid, _prompts s !! k = Some p -> p_collection_id p = Some cid ->
    cid <> "" -> is_Some (_collections s !! cid).

(** ** Words of the specification *)

(** [a] occurs in [b] as a substring. *)
Definition is_substring (a b : string) : Prop :=
  exists pre post, b = pre +:+ a +:+ post.

(** Lower case.  The capital letters of the alphabet of the model are A to
    Z and the accented capitals from 192 to 222, the multiplication sign
    (215) apart.  The lower-case form of a capital letter lies 32 places
    further; every other character is its own lower-case form. *)
Definition is_capital (c : ascii) : Prop :=
  let n := N_of_ascii c in
  (65 <= n <= 90 \/ 192 <= n <= 214 \/ 216 <= n <= 222)%N.

(** [lowercased s s']: [s'] is [s] with every capital letter replaced by its
    lower-case form. *)
Inductive lowercased : string -> string -> Prop :=
| lowercased_empty : lowercased "" ""
| lowercased_capital c s s' :
    is_capital c -> lowercased s s' ->
    lowercased (String c s) (String (ascii_of_N (N_of_ascii c + 32)) s')
| lowercased_other c s s' :
    ~ is_capital c -> lowercased s s' ->
    lowercased (String c s) (String c s').

(** The prompts a search for [query] selects: the lowercased query occurs in
    the lowercased title, or the prompt has a description and it occurs in
    the lowercased description. *)
Definition search_selects (query : string) (p : Prompt) : Prop :=
  exists q, lowercased query q /\
    ((exists t, lowercased (p_title p) t /\ is_substring q t) \/
     (exists d d', p_description p = Some d /\ lowercased d d' /\ is_substring q d')).

(** Ordered by [key], ascending or descending. *)
Fixpoint ordered_by {A} (key : A -> Z) (descending : bool) (l : list A) : Prop :=
  match l with
  | [] => True
  | x :: l' =>
      (forall y, In y l' -> if descending then key y <= key x else key x <= key y) /\
      ordered_by key descending l'
  end.

(** The entities with a given key, in list order. *)
Definition with_key {A} (key : A -> Z) (t : Z) (l : list A) : list A :=
  List.filter (fun x => key x =? t) l.

(** The reference check of create, update and patch passes on [v]: a
    non-empty collection id names a stored collection. *)
Definition reference_passes (s : Storage) (v : option string) : Prop :=
  forall cid, v = Some cid -> cid <> "" -> is_Some (_collections s !! cid).

(** The value a patch carries for a field, if any. *)
Definition patch_value (f : patch_field) : option string :=
  match f with
  | Set_ v => v
  | Unset => None
  end.

(** The upper length bounds of [PromptPatch] alone. *)
Definition patch_within_limits (d : PromptPatch) : bool :=
  patch_check (max_length 200) (pp_title d) &&
  patch_check (max_length 500) (pp_description d).

(** A patch field that asks for no change: omitted, null or the empty string. *)
Definition no_change (f : patch_field) : Prop :=
  f = Unset \/ f = Set_ None \/ f = Set_ (Some "").

(** The value of a field after a patch: a given non-empty string, or the
    old value. *)

Definition merged (old : string) (f : patch_field) : string :=
  match f with
  | Set_ (Some v) => if String.eqb v "" then old else v
  | _ => old
  end.

Definition merged_opt (old : option string) (f : patch_field) : option string :=
  match f with
  | Set_ (Some v) => if String.eqb v "" then old else Some v
  | _ => old
  end.

(** The dictionary after the loop has gone through the fields other than
    [collection_id]. *)
Definition merge_plain (existing : Prompt) (d : PromptPatch) : Prompt :=
  mkPrompt (merged (p_title existing) (pp_title d))
    (merged (p_content existing) (pp_content d))
    (merged_opt (p_description existing) (pp_description d))
    (p_collection_id existing) (p_id existing)
    (p_created_at existing) (p_updated_at existing).

(** The prompt a successful patch stores. *)
Definition merge_patch (existing : Prompt) (d : PromptPatch) (now : datetime) : Prompt :=
  mkPrompt (merged (p_title existing) (pp_title d))
    (merged (p_content existing) (pp_content d))
    (merged_opt (p_description existing) (pp_description d))
    (merged_opt (p_collection_id existing) (pp_collection_id d)) (p_id existing)
    (p_created_at existing) now.

(** The prompt a successful full update stores. *)
Definition replace_fields (existing : Prompt) (d : PromptUpdate) (now : datetime) : Prompt :=
  mkPrompt (pb_title d) (pb_content d) (pb_description d) (pb_collection_id d)
    (p_id existing) (p_created_at existing) now.

(** The store with [p] filed under [k]. *)
Definition with_prompt (k : string) (p : Prompt) (s : Storage) : Storage :=
  mkStorage (<[k := p]> (_prompts s)) (_collections s).

(** The prompts [get_prompts_by_collection] returns. *)
Definition members (collection_id : string) (s : Storage) : list Prompt :=
  List.filter (storage.in_collection collection_id) (map_to_list (_prompts s)).*2.

(** The prompts map after [delete_prompt] has been called on the id of each
    prompt of a list. *)
Definition drop_prompts (ps : list Prompt) (m : gmap string Prompt) : gmap string Prompt :=
  foldl (fun m p => delete (p_id p) m) m ps.

(** What a request can do to the store: nothing, or one of the writes below. *)
Inductive writes : request -> Storage -> Storage -> Prop :=
| W_nothing r s :
    writes r s s
| W_create_prompt d i t1 t2 s :
    PromptBase_valid d = true ->
    reference_passes s (pb_collection_id d) ->
    writes (CreatePrompt d i t1 t2) s
      (with_prompt i
         (mkPrompt (pb_title d) (pb_content d) (pb_description d) (pb_collection_id d)
            i t1 t2) s)
| W_update_prompt i d t s existing :
    _prompts s !! i = Some existing ->
    PromptBase_valid d = true ->
    reference_passes s (pb_collection_id d) ->
    writes (UpdatePrompt i d t) s (with_prompt i (replace_fields existing d t) s)
| W_patch_prompt i d t s existing :
    _prompts s !! i = Some existing ->
    Prompt_valid (merge_patch existing d t) = true ->
    reference_passes s (patch_value (pp_collection_id d)) ->
    writes (PatchPrompt i d t) s (with_prompt i (merge_patch existing d t) s)
| W_delete_prompt i s :
    writes (DeletePrompt i) s (mkStorage (delete i (_prompts s)) (_collections s))
| W_create_collection d i t s :
    CollectionCreate_valid d = true ->
    writes (CreateCollection d i t) s
      (mkStorage (_prompts s)
         (<[i := mkCollection (cc_name d) (cc_description d) i t]> (_collections s)))
| W_delete_collection cid s :
    writes (DeleteCollection cid) s
      (mkStorage (drop_prompts (members cid s) (_prompts s)) (delete cid (_collections s))).

(** The three invariants together. *)
Definition store_ok (s : Storage) : Prop :=
  keys_are_ids s /\ prompts_valid s /\ references_resolve s.

(** Every stored prompt was created no later than it was last updated, and
    last updated no later than [clock]. *)
Definition timely (clock : datetime) (s : Storage) : Prop :=
  forall k p, _prompts s !! k = Some p ->
    p_created_at p <= p_updated_at p /\ p_updated_at p <= clock.

(** Full updates and patches. *)
Definition is_modification (r : request) : bool :=
  match r with
  | UpdatePrompt _ _ _ | PatchPrompt _ _ _ => true
  | _ => false
  end.

(** [l'] consists of exactly the elements of [l] that satisfy [P], in the
    order they have in [l]. *)
Inductive selected {A} (P : A -> Prop) : list A -> list A -> Prop :=
| selected_nil : selected P [] []
| selected_keep x l l' : P x -> selected P l l' -> selected P (x :: l) (x :: l')
| selected_drop x l l' : ~ P x -> selected P l l' -> selected P (x :: l) l'.

(** A small run of the service, used to instantiate the statements below. *)
Definition demo_requests : list request :=
  [ CreateCollection (mkCollectionCreate "Writing" None) "c1" 1;
    CreatePrompt (mkPromptBase "Hello World" "Say hello" (Some "a greeting") (Some "c1"))
      "p1" 2 3;
    CreatePrompt (mkPromptBase "Summary" "Summarise the text" None None) "p2" 4 5 ].

Definition demo_store : Storage := serve demo_requests storage.init.

Definition demo_p1 : Prompt :=
  mkPrompt "Hello World" "Say hello" (Some "a greeting") (Some "c1") "p1" 2 3.

Definition demo_p2 : Prompt :=
  mkPrompt "Summary" "Summarise the text" None None "p2" 4 5.

Definition demo_c1 : Collection := mkCollection "Writing" None "c1" 1.

(** Two further requests on the first prompt of [demo_store], and the
    prompt they leave. *)
Definition demo_changes : list request :=
  [ PatchPrompt "p1" (mkPromptPatch Unset Unset (Set_ (Some "")) Unset) 9;
    UpdatePrompt "p1" (mkPromptBase "Bye" "Say goodbye" None None) 12 ].

Definition demo_p1_changed : Prompt :=
  mkPrompt "Bye" "Say goodbye" None None "p1" 2 12.

(** A store reached by creating one prompt whose [collection_id] is the
    empty string, and a store holding a prompt that names a collection
    which is not stored. *)
Definition unfiled_prompt : Prompt := mkPrompt "Draft" "text" None (Some "") "p1" 1 2.

Definition unfiled_store : Storage :=
  serve [CreatePrompt (mkPromptBase "Draft" "text" None (Some "")) "p1" 1 2] storage.init.

Definition dangling_prompt : Prompt := mkPrompt "Draft" "text" None (Some "ghost") "p1" 1 2.

Definition dangling_store : Storage :=
  snd (storage.create_prompt dangling_prompt storage.init).

(** Every stored collection satisfies the field constraints of [Collection]. *)
Definition collections_valid (s : Storage) : Prop :=
  forall k c, _collections s !! k = Some c -> Collection_valid c = true.

(** The prompt [create_prompt] builds. *)
Definition new_prompt (d : PromptCreate) (new_id : string) (t_created t_updated : datetime)
    : Prompt :=
  mkPrompt (pb_title d) (pb_content d) (pb_description d) (pb_collection_id d)
    new_id t_created t_updated.

(** The collection [create_collection] builds. *)
Definition new_collection (d : CollectionCreate) (new_id : string) (t_created : datetime)
    : Collection :=
  mkCollection (cc_name d) (cc_description d) new_id t_created.

(** The listing filters that are applied: a filter that is absent or the
    empty string is not. *)
Definition listed (collection_id search : option string) (p : Prompt) : Prop :=
  (forall c, collection_id = Some c -> c <> "" -> p_collection_id p = Some c) /\
  (forall q, search = Some q -> q <> "" -> search_selects q p).

(** Characters of a string, all in a class. *)
Fixpoint all_chars (cls : ascii -> bool) (s : string) : bool :=
  match s with
  | EmptyString => true
  | String c s' => cls c && all_chars cls s'
  end.

Definition is_open_brace (c : ascii) : bool := Ascii.eqb c "{".

(** [{{name}}] *)
Definition placeholder (name : string) : string := "{{" +:+ name +:+ "}}".

(** The placeholders of a list of names, one after the other. *)
Fixpoint placeholders (names : list string) : string :=
  match names with
  | [] => ""
  | name :: rest => placeholder name +:+ placeholders rest
  end.

(** A name a placeholder can carry: word characters, at least one. *)
Definition is_name (w : string) : Prop := w <> "" /\ all_chars utils.isword w = true.

(** A store built with the methods of [Storage] alone, in which a prompt is
    filed under a key that is not its [id]: [update_prompt] files the new
    value under the key it is given. *)
Definition misfiled_prompt : Prompt :=
  mkPrompt "Hello World" "Say hello" (Some "a greeting") (Some "c1") "p9" 2 9.

Definition misfiled_store : Storage :=
  snd (storage.update_prompt "p1" misfiled_prompt
         (snd (storage.create_prompt demo_p1
                 (snd (storage.create_collection demo_c1 storage.init))))).

(** A run in which the second reading of the clock is earlier than the first. *)
Definition clock_steps_back : list request :=
  [ CreatePrompt (mkPromptBase "Plan" "Plan my day" None None) "p1" 5 5;
    UpdatePrompt "p1" (mkPromptBase "Plan" "Plan my day" None None) 3 ].

(** * Proofs *)

(** ** Python helpers *)

Lemma truthy_Some s : truthy (Some s) = true <-> s <> "".
Proof.
  unfold truthy. rewrite negb_true_iff. apply String.eqb_neq.
Qed.

Lemma truthy_Some_false s : truthy (Some s) = false <-> s = "".
Proof.
  unfold truthy. rewrite negb_false_iff. apply String.eqb_eq.
Qed.

Lemma PromptPatch_valid_within_limits d :
  PromptPatch_valid d = true -> patch_within_limits d = true.
Proof.
  unfold PromptPatch_valid, patch_within_limits, title_ok.
  destruct (pp_title d) as [|[t|]]; simpl; intros H;
    repeat (apply andb_prop in H as [H ?]); auto using andb_true_intro.
Qed.

(** ** The reference check *)

Lemma require_collection_found s cid :
  is_Some (_collections s !! cid) -> api.require_collection cid s = (Return tt, s).
Proof.
  intros [c Hc]. unfold api.require_collection, bind, storage.get_collection.
  now rewrite Hc.
Qed.

Lemma require_collection_missing s cid :
  _collections s !! cid = None -> api.require_collection cid s = (Raise InvalidReference, s).
Proof.
  intros Hc. unfold api.require_collection, bind, storage.get_collection.
  now rewrite Hc.
Qed.

Lemma reference_check_passes s v :
  reference_passes s v -> api.if_truthy v api.require_collection s = (Return tt, s).
Proof.
  intros Hv. destruct v as [cid|]; [|reflexivity].
  unfold api.if_truthy. destruct (truthy (Some cid)) eqn:Ht; [|reflexivity].
  apply require_collection_found, (Hv cid); [reflexivity|].
  now apply truthy_Some.
Qed.

Lemma reference_check_fails s cid :
  cid <> "" -> _collections s !! cid = None ->
  api.if_truthy (Some cid) api.require_collection s = (Raise InvalidReference, s).
Proof.
  intros Hne Hc. unfold api.if_truthy.
  apply truthy_Some in Hne. rewrite Hne. now apply require_collection_missing.
Qed.

(** ** The merge performed by [patch_prompt] *)

Lemma patch_loop_unfold d existing s :
  api.patch_loop (api.set_fields d) existing s =
  match pp_collection_id d with
  | Set_ (Some cid) =>
      if String.eqb cid "" then (Return (merge_plain existing d), s)
      else match _collections s !! cid with
           | None => (Raise InvalidReference, s)
           | Some _ => (Return (api.set_item (merge_plain existing d) api.F_collection_id cid), s)
           end
  | _ => (Return (merge_plain existing d), s)
  end.
Proof.
  destruct existing, d as [t c de co]. unfold api.set_fields, merge_plain.
  destruct t as [|[t|]], c as [|[c|]], de as [|[de|]]; simpl;
    repeat match goal with
           | |- context [String.eqb ?v ""] =>
               lazymatch v with
               | _ => is_var v; destruct (String.eqb v "") eqn:?; simpl
               end
           end;
    destruct co as [|[co|]]; simpl; try reflexivity;
    unfold truthy; destruct (String.eqb co ""); simpl; try reflexivity;
    unfold bind, api.require_collection, storage.get_collection, bind, ret, raise;
    destruct (_collections s !! co); reflexivity.
Qed.

Lemma nonempty_min_length v : String.eqb v "" = false -> min_length 1 v = true.
Proof.
  intros Hv. destruct v as [|a v]; [discriminate|].
  unfold min_length, len. simpl String.length. apply Z.leb_le. lia.
Qed.

Lemma merged_title_ok old f :
  title_ok old = true -> patch_check (max_length 200) f = true ->
  title_ok (merged old f) = true.
Proof.
  intros Ho Hf. destruct f as [|[v|]]; simpl in *; try assumption.
  destruct (String.eqb v "") eqn:Hv; [assumption|].
  unfold title_ok. now rewrite nonempty_min_length, Hf.
Qed.

Lemma merged_content_ok old f :
  content_ok old = true -> content_ok (merged old f) = true.
Proof.
  intros Ho. destruct f as [|[v|]]; simpl; try assumption.
  destruct (String.eqb v "") eqn:Hv; [assumption|].
  now apply nonempty_min_length.
Qed.

Lemma merged_description_ok old f :
  description_ok old = true -> patch_check (max_length 500) f = true ->
  description_ok (merged_opt old f) = true.
Proof.
  intros Ho Hf. destruct f as [|[v|]]; simpl in *; try assumption.
  now destruct (String.eqb v "").
Qed.

Lemma merge_plain_valid existing d :
  Prompt_valid existing = true -> patch_within_limits d = true ->
  Prompt_valid (merge_plain existing d) = true.
Proof.
  unfold Prompt_valid, patch_within_limits, validate_PromptBase, merge_plain. simpl.
  intros He Hd.
  apply andb_prop in He as [He Hde]. apply andb_prop in He as [Ht Hc].
  apply andb_prop in Hd as [Hdt Hdd].
  rewrite merged_title_ok, merged_content_ok, merged_description_ok by assumption.
  reflexivity.
Qed.

(** ** Full update *)

Lemma update_prompt_missing s prompt_id d now :
  _prompts s !! prompt_id = None ->
  api.update_prompt prompt_id d now s = (Raise (NotFound "Prompt not found"), s).
Proof.
  intros Hk. unfold api.update_prompt, bind, storage.get_prompt. now rewrite Hk.
Qed.

Lemma update_prompt_bad_reference s prompt_id existing d cid now :
  _prompts s !! prompt_id = Some existing ->
  pb_collection_id d = Some cid -> cid <> "" -> _collections s !! cid = None ->
  api.update_prompt prompt_id d now s = (Raise InvalidReference, s).
Proof.
  intros Hk Hd Hne Hc. unfold api.update_prompt, bind at 1, storage.get_prompt.
  rewrite Hk. unfold bind. rewrite Hd. now rewrite reference_check_fails.
Qed.

Lemma update_prompt_invalid s prompt_id existing d now :
  _prompts s !! prompt_id = Some existing ->
  reference_passes s (pb_collection_id d) -> PromptBase_valid d = false ->
  api.update_prompt prompt_id d now s = (Raise ValidationError, s).
Proof.
  intros Hk Hr Hv. unfold api.update_prompt, bind at 1, storage.get_prompt.
  rewrite Hk. unfold bind. rewrite reference_check_passes by assumption.
  unfold Prompt_new. unfold PromptBase_valid in Hv. now rewrite Hv.
Qed.

Lemma update_prompt_ok s prompt_id existing d now :
  _prompts s !! prompt_id = Some existing ->
  reference_passes s (pb_collection_id d) -> PromptBase_valid d = true ->
  api.update_prompt prompt_id d now s =
    (Return (Some (replace_fields existing d now)),
     with_prompt prompt_id (replace_fields existing d now) s).
Proof.
  intros Hk Hr Hv. unfold api.update_prompt, bind at 1, storage.get_prompt.
  rewrite Hk. unfold bind. rewrite reference_check_passes by assumption.
  unfold Prompt_new. unfold PromptBase_valid in Hv. rewrite Hv.
  unfold storage.update_prompt. now rewrite Hk.
Qed.

(** ** Patch *)

Lemma patch_prompt_missing s prompt_id d now :
  _prompts s !! prompt_id = None ->
  api.patch_prompt prompt_id d now s = (Raise (NotFound "Prompt not found"), s).
Proof.
  intros Hk. unfold api.patch_prompt, bind, storage.get_prompt. now rewrite Hk.
Qed.

Lemma patch_prompt_bad_reference s prompt_id existing d cid now :
  _prompts s !! prompt_id = Some existing ->
  pp_collection_id d = Set_ (Some cid) -> cid <> "" -> _collections s !! cid = None ->
  api.patch_prompt prompt_id d now s = (Raise InvalidReference, s).
Proof.
  intros Hk Hd Hne Hc. unfold api.patch_prompt, bind at 1, storage.get_prompt.
  rewrite Hk. unfold bind. rewrite patch_loop_unfold, Hd.
  apply String.eqb_neq in Hne. now rewrite Hne, Hc.
Qed.

Lemma patch_loop_passes s existing d now :
  reference_passes s (patch_value (pp_collection_id d)) ->
  exists update_data,
    api.patch_loop (api.set_fields d) existing s = (Return update_data, s) /\
    api.set_updated_at update_data now = merge_patch existing d now /\
    Prompt_valid update_data = Prompt_valid (merge_plain existing d).
Proof.
  intros Hr. rewrite patch_loop_unfold. unfold merge_patch, merged_opt.
  destruct (pp_collection_id d) as [|[cid|]]; simpl in *; eauto.
  destruct (String.eqb cid "") eqn:Hcid; eauto.
  destruct (Hr cid) as [c Hc]; [reflexivity|now apply String.eqb_neq|].
  rewrite Hc. eauto.
Qed.

Lemma patch_prompt_ok s prompt_id existing d now :
  _prompts s !! prompt_id = Some existing ->
  Prompt_valid existing = true -> patch_within_limits d = true ->
  reference_passes s (patch_value (pp_collection_id d)) ->
  api.patch_prompt prompt_id d now s =
    (Return (Some (merge_patch existing d now)),
     with_prompt prompt_id (merge_patch existing d now) s).
Proof.
  intros Hk He Hd Hr. unfold api.patch_prompt, bind at 1, storage.get_prompt.
  rewrite Hk. unfold bind.
  destruct (patch_loop_passes s existing d now Hr) as (u & -> & Hu & Hv).
  rewrite (merge_plain_valid _ _ He Hd) in Hv.
  unfold api.Prompt_of_dict, Prompt_new.
  replace (validate_PromptBase _ _ _) with (Prompt_valid u) by now destruct u.
  rewrite Hv.
  replace (mkPrompt _ _ _ _ _ _ _) with (api.set_updated_at u now) by now destruct u.
  rewrite Hu. unfold storage.update_prompt. now rewrite Hk.
Qed.

(** ** Cascading delete *)

Lemma delete_prompt_store k s :
  snd (storage.delete_prompt k s) = mkStorage (delete k (_prompts s)) (_collections s) /\
  exists b, fst (storage.delete_prompt k s) = Return b.
Proof.
  unfold storage.delete_prompt. destruct (_prompts s !! k) eqn:Hk; simpl.
  - eauto.
  - rewrite delete_id by assumption. destruct s; eauto.
Qed.

Lemma for_each_delete ps s :
  for_each ps (fun prompt => let* _ := storage.delete_prompt (p_id prompt) in ret tt) s =
  (Return tt, mkStorage (drop_prompts ps (_prompts s)) (_collections s)).
Proof.
  revert s. induction ps as [|p ps IH]; intros s; simpl.
  - now destruct s.
  - destruct (delete_prompt_store (p_id p) s) as [Hs [b Hb]].
    unfold bind at 1. unfold bind at 1.
    destruct (storage.delete_prompt (p_id p) s) as [o s1]. simpl in *. subst.
    unfold ret. now rewrite IH.
Qed.

Lemma lookup_drop_prompts ps m k p :
  drop_prompts ps m !! k = Some p <->
  m !! k = Some p /\ forall q, q ∈ ps -> p_id q <> k.
Proof.
  revert m. induction ps as [|a ps IH]; intros m; simpl.
  - split; [intros H; split; [assumption|]|tauto].
    intros q Hq. inversion Hq.
  - rewrite IH. rewrite lookup_delete_Some. split.
    + intros [[Hne Hm] Hall]. split; [assumption|].
      intros q [->|Hq]%elem_of_cons; auto.
    + intros [Hm Hall]. split; [split|]; [|assumption|].
      * apply Hall. left.
      * intros q Hq. apply Hall. now right.
Qed.

Lemma drop_prompts_nil_lookup ps m k : m !! k = None -> drop_prompts ps m !! k = None.
Proof.
  intros Hk. destruct (drop_prompts ps m !! k) as [p|] eqn:Hd; [|reflexivity].
  apply lookup_drop_prompts in Hd as [Hd _]. congruence.
Qed.

Lemma elem_of_members cid s p :
  p ∈ members cid s <->
  (exists k, _prompts s !! k = Some p) /\ p_collection_id p = Some cid.
Proof.
  unfold members. rewrite list_elem_of_In, filter_In, <- list_elem_of_In.
  unfold storage.in_collection. rewrite bool_decide_eq_true.
  rewrite list_elem_of_fmap. split.
  - intros [[[k q] [-> Hq]] Hc]. apply elem_of_map_to_list in Hq. eauto.
  - intros [[k Hk] Hc]. split; [|assumption].
    exists (k, p). split; [reflexivity|]. now apply elem_of_map_to_list.
Qed.

Lemma delete_collection_unfold cid s :
  api.delete_collection cid s =
  (match _collections s !! cid with
   | Some _ => Return tt
   | None => Raise (NotFound "Collection not found")
   end,
   mkStorage (drop_prompts (members cid s) (_prompts s)) (delete cid (_collections s))).
Proof.
  unfold api.delete_collection, bind at 1, storage.get_prompts_by_collection.
  fold (members cid s). unfold bind at 1. rewrite for_each_delete.
  unfold bind, storage.delete_collection. simpl.
  destruct (_collections s !! cid) eqn:Hc; simpl; [reflexivity|].
  now rewrite delete_id.
Qed.

(** Under [keys_are_ids] the cascade removes the members and nothing else. *)
Lemma lookup_cascade cid s k :
  keys_are_ids s ->
  drop_prompts (members cid s) (_prompts s) !! k =
  match _prompts s !! k with
  | Some p => if storage.in_collection cid p then None else Some p
  | None => None
  end.
Proof.
  intros [Hids _].
  destruct (_prompts s !! k) as [p|] eqn:Hk; [|now apply drop_prompts_nil_lookup].
  destruct (storage.in_collection cid p) eqn:Hin.
  - destruct (drop_prompts _ _ !! k) as [q|] eqn:Hd; [|reflexivity].
    apply lookup_drop_prompts in Hd as [Hq Hall]. exfalso.
    apply (Hall p); [|now apply Hids].
    apply elem_of_members. split; [eauto|].
    unfold storage.in_collection in Hin. now apply bool_decide_eq_true in Hin.
  - apply lookup_drop_prompts. split; [assumption|].
    intros q [[k' Hq] Hc]%elem_of_members Hqk.
    apply Hids in Hq as Hq'. assert (k' = k) by congruence. subst k'.
    assert (q = p) by congruence. subst q.
    unfold storage.in_collection in Hin. apply bool_decide_eq_false in Hin. contradiction.
Qed.

(** The prompts filed under a collection, as a predicate on map entries. *)
Lemma length_filter_values cid (l : list (string * Prompt)) :
  length (List.filter (storage.in_collection cid) l.*2) =
  length (filter (fun kp : string * Prompt => p_collection_id kp.2 = Some cid) l).
Proof.
  induction l as [|[k p] l IH]; [reflexivity|].
  rewrite fmap_cons, filter_cons. cbn [List.filter snd].
  unfold storage.in_collection at 1.
  destruct (decide (p_collection_id p = Some cid)) as [Hp|Hp].
  - rewrite bool_decide_eq_true_2 by assumption. cbn [length]. now rewrite IH.
  - now rewrite bool_decide_eq_false_2 by assumption.
Qed.

Lemma length_members cid s :
  length (members cid s) =
  size (filter (fun kp : string * Prompt => p_collection_id kp.2 = Some cid) (_prompts s)).
Proof.
  unfold members. rewrite length_filter_values, map_filter_alt.
  rewrite <- length_map_to_list. symmetry. apply Permutation_length.
  apply map_to_list_to_map.
  apply (sublist_NoDup _ (map_to_list (_prompts s)).*1).
  - apply NoDup_fst_map_to_list.
  - apply fmap_sublist, sublist_filter.
Qed.

Lemma cascade_is_filter cid s :
  keys_are_ids s ->
  drop_prompts (members cid s) (_prompts s) =
  filter (fun kp : string * Prompt => ~ p_collection_id kp.2 = Some cid) (_prompts s).
Proof.
  intros Hids. apply map_eq. intros k. rewrite lookup_cascade by assumption.
  rewrite map_lookup_filter. destruct (_prompts s !! k) as [p|]; [|reflexivity].
  simpl. unfold storage.in_collection.
  destruct (decide (p_collection_id p = Some cid)) as [Hp|Hp].
  - rewrite bool_decide_eq_true_2 by assumption.
    rewrite option_guard_False; [reflexivity|]. simpl. tauto.
  - rewrite bool_decide_eq_false_2 by assumption.
    now rewrite option_guard_True.
Qed.

Lemma cascade_size cid s :
  keys_are_ids s ->
  size (_prompts s) =
  (length (members cid s) + size (drop_prompts (members cid s) (_prompts s)))%nat.
Proof.
  intros Hids. rewrite cascade_is_filter, length_members by assumption.
  rewrite <- map_size_disj_union by apply map_disjoint_filter_complement.
  now rewrite map_filter_union_complement.
Qed.

(** ** Every request is one of the writes *)

Lemma reference_passes_dec s v :
  reference_passes s v \/
  exists cid, v = Some cid /\ cid <> "" /\ _collections s !! cid = None.
Proof.
  destruct v as [cid|]; [|left; intros c; discriminate].
  destruct (String.eqb cid "") eqn:Hcid.
  - apply String.eqb_eq in Hcid. left. intros c [= <-] Hne. contradiction.
  - apply String.eqb_neq in Hcid. destruct (_collections s !! cid) as [col|] eqn:Hc.
    + left. intros c [= <-] _. eauto.
    + right. eauto.
Qed.

Lemma create_prompt_writes d i t1 t2 s :
  writes (CreatePrompt d i t1 t2) s (snd (api.create_prompt d i t1 t2 s)).
Proof.
  unfold api.create_prompt, bind.
  destruct (reference_passes_dec s (pb_collection_id d)) as [Hr|(cid & Hd & Hne & Hc)].
  - rewrite reference_check_passes by assumption.
    unfold Prompt_new. fold (PromptBase_valid d).
    destruct (PromptBase_valid d) eqn:Hv; [|constructor].
    now constructor.
  - rewrite Hd, reference_check_fails by assumption. constructor.
Qed.

Lemma update_prompt_writes i d t s :
  writes (UpdatePrompt i d t) s (snd (api.update_prompt i d t s)).
Proof.
  destruct (_prompts s !! i) as [existing|] eqn:Hk.
  - destruct (reference_passes_dec s (pb_collection_id d)) as [Hr|(cid & Hd & Hne & Hc)].
    + destruct (PromptBase_valid d) eqn:Hv.
      * rewrite (update_prompt_ok _ _ existing) by assumption. now constructor.
      * rewrite (update_prompt_invalid _ _ existing) by assumption. constructor.
    + rewrite (update_prompt_bad_reference _ _ existing _ cid) by assumption. constructor.
  - rewrite update_prompt_missing by assumption. constructor.
Qed.

Lemma patch_prompt_invalid s prompt_id existing d now :
  _prompts s !! prompt_id = Some existing ->
  reference_passes s (patch_value (pp_collection_id d)) ->
  Prompt_valid (merge_patch existing d now) = false ->
  api.patch_prompt prompt_id d now s = (Raise ValidationError, s).
Proof.
  intros Hk Hr Hv. unfold api.patch_prompt, bind at 1, storage.get_prompt.
  rewrite Hk. unfold bind.
  destruct (patch_loop_passes s existing d now Hr) as (u & -> & Hu & _).
  unfold api.Prompt_of_dict, Prompt_new. rewrite <- Hu in Hv.
  unfold Prompt_valid in Hv. now rewrite Hv.
Qed.

Lemma patch_prompt_valid s prompt_id existing d now :
  _prompts s !! prompt_id = Some existing ->
  reference_passes s (patch_value (pp_collection_id d)) ->
  Prompt_valid (merge_patch existing d now) = true ->
  api.patch_prompt prompt_id d now s =
    (Return (Some (merge_patch existing d now)),
     with_prompt prompt_id (merge_patch existing d now) s).
Proof.
  intros Hk Hr Hv. unfold api.patch_prompt, bind at 1, storage.get_prompt.
  rewrite Hk. unfold bind.
  destruct (patch_loop_passes s existing d now Hr) as (u & -> & Hu & _).
  unfold api.Prompt_of_dict, Prompt_new. rewrite <- Hu in Hv.
  unfold Prompt_valid in Hv. rewrite Hv.
  replace (mkPrompt _ _ _ _ _ _ _) with (api.set_updated_at u now)
    by (unfold api.set_updated_at; reflexivity).
  rewrite Hu. unfold storage.update_prompt. now rewrite Hk.
Qed.

Lemma patch_prompt_writes i d t s :
  writes (PatchPrompt i d t) s (snd (api.patch_prompt i d t s)).
Proof.
  destruct (_prompts s !! i) as [existing|] eqn:Hk.
  - destruct (reference_passes_dec s (patch_value (pp_collection_id d)))
      as [Hr|(cid & Hd & Hne & Hc)].
    + destruct (Prompt_valid (merge_patch existing d t)) eqn:Hv.
      * rewrite (patch_prompt_valid _ _ existing) by assumption. now constructor.
      * rewrite (patch_prompt_invalid _ _ existing) by assumption. constructor.
    + rewrite (patch_prompt_bad_reference _ _ existing _ cid); try assumption.
      * constructor.
      * destruct (pp_collection_id d); simpl in Hd; congruence.
  - rewrite patch_prompt_missing by assumption. constructor.
Qed.

Lemma handle_writes r s : writes r s (handle r s).
Proof.
  destruct r; simpl; try constructor.
  - unfold api.get_prompt, bind, storage.get_prompt.
    destruct (_prompts s !! prompt_id); constructor.
  - apply create_prompt_writes.
  - apply update_prompt_writes.
  - apply patch_prompt_writes.
  - unfold api.delete_prompt, bind.
    destruct (delete_prompt_store prompt_id s) as [Hs [b Hb]].
    destruct (storage.delete_prompt prompt_id s) as [o s1]. simpl in *. subst.
    destruct b; simpl; constructor.
  - unfold api.get_collection, bind, storage.get_collection.
    destruct (_collections s !! collection_id); constructor.
  - unfold api.create_collection, Collection_new.
    destruct (name_ok _ && description_ok _) eqn:Hv; simpl; now constructor.
  - rewrite delete_collection_unfold. constructor.
Qed.

(** ** The invariants hold in every reachable store *)

Lemma merge_patch_collection existing d t cid s :
  p_collection_id (merge_patch existing d t) = Some cid -> cid <> "" ->
  reference_passes s (patch_value (pp_collection_id d)) ->
  p_collection_id existing = Some cid \/ is_Some (_collections s !! cid).
Proof.
  unfold merge_patch, merged_opt. simpl. intros Hc Hne Hr.
  destruct (pp_collection_id d) as [|[v|]]; simpl in *; auto.
  destruct (String.eqb v ""); auto.
Qed.

Lemma writes_keys_are_ids r s s' :
  writes r s s' -> keys_are_ids s -> keys_are_ids s'.
Proof.
  intros Hw [Hp Hc].
  destruct Hw; split; simpl; try assumption; intros k x.
  - rewrite lookup_insert_Some. intros [[<- <-]|[_ Hk]]; [reflexivity|eauto].
  - rewrite lookup_insert_Some. intros [[<- <-]|[_ Hk]]; simpl; eauto.
  - rewrite lookup_insert_Some. intros [[<- <-]|[_ Hk]]; simpl; eauto.
  - rewrite lookup_delete_Some. intros [_ Hk]. eauto.
  - rewrite lookup_insert_Some. intros [[<- <-]|[_ Hk]]; [reflexivity|eauto].
  - rewrite lookup_drop_prompts. intros [Hk _]. eauto.
  - rewrite lookup_delete_Some. intros [_ Hk]. eauto.
Qed.

Lemma writes_prompts_valid r s s' :
  writes r s s' -> prompts_valid s -> prompts_valid s'.
Proof.
  intros Hw Hv.
  destruct Hw; try assumption; intros k x; simpl.
  - rewrite lookup_insert_Some. intros [[<- <-]|[_ Hk]]; [assumption|eauto].
  - rewrite lookup_insert_Some. intros [[<- <-]|[_ Hk]]; [assumption|eauto].
  - rewrite lookup_insert_Some. intros [[<- <-]|[_ Hk]]; [assumption|eauto].
  - rewrite lookup_delete_Some. intros [_ Hk]. eauto.
  - rewrite lookup_drop_prompts. intros [Hk _]. eauto.
Qed.

Lemma writes_references_resolve r s s' :
  writes r s s' -> keys_are_ids s -> references_resolve s -> references_resolve s'.
Proof.
  intros Hw Hids Hr.
  destruct Hw; try assumption; intros k x c; simpl.
  - rewrite lookup_insert_Some. intros [[<- <-]|[_ Hk]]; simpl; eauto.
  - rewrite lookup_insert_Some. intros [[<- <-]|[_ Hk]]; simpl; eauto.
  - rewrite lookup_insert_Some. intros [[<- <-]|[_ Hk]]; simpl; [|eauto].
    intros Hc Hne.
    destruct (merge_patch_collection existing d t c s Hc Hne); eauto.
  - rewrite lookup_delete_Some. intros [_ Hk]. eauto.
  - intros Hk Hc Hne. rewrite lookup_insert_is_Some'. right. eauto.
  - rewrite lookup_cascade by assumption.
    destruct (_prompts s !! k) as [p|] eqn:Hk; [|discriminate].
    unfold storage.in_collection. case_bool_decide as Hin; [discriminate|].
    intros [= <-] Hc Hne. rewrite lookup_delete_is_Some. split; [congruence|eauto].
Qed.

Lemma store_ok_init : store_ok storage.init.
Proof.
  repeat split; intros k x; simpl; rewrite lookup_empty; discriminate.
Qed.

Lemma handle_store_ok r s : store_ok s -> store_ok (handle r s).
Proof.
  intros (Hids & Hv & Hr). pose proof (handle_writes r s) as Hw.
  repeat split.
  - eapply writes_keys_are_ids; eauto.
  - eapply writes_keys_are_ids; eauto.
  - eapply writes_prompts_valid; eauto.
  - eapply writes_references_resolve; eauto.
Qed.

Lemma serve_store_ok rs s : store_ok s -> store_ok (serve rs s).
Proof.
  revert s. induction rs as [|r rs IH]; intros s Hs; simpl; [assumption|].
  apply IH, handle_store_ok, Hs.
Qed.

Lemma reachable_store_ok s : reachable s -> store_ok s.
Proof.
  intros [rs ->]. apply serve_store_ok, store_ok_init.
Qed.

Lemma serve_app rs1 rs2 s : serve (rs1 ++ rs2) s = serve rs2 (serve rs1 s).
Proof.
  revert s. induction rs1 as [|r rs1 IH]; intros s; simpl; [reflexivity|apply IH].
Qed.

(** ** Timestamps under a clock that does not run backwards *)

Lemma last_cons_default (a d : datetime) l : List.last (a :: l) d = List.last l a.
Proof.
  revert a d. induction l as [|b l IH]; intros a d; [reflexivity|].
  change (List.last (a :: b :: l) d) with (List.last (b :: l) d).
  rewrite (IH b d). symmetry. apply (IH b a).
Qed.

Lemma last_app_default (l1 l2 : list datetime) d :
  List.last (l1 ++ l2) d = List.last l2 (List.last l1 d).
Proof.
  revert d. induction l1 as [|a l1 IH]; intros d; [reflexivity|].
  rewrite <- app_comm_cons, !last_cons_default. apply IH.
Qed.

Lemma nondecreasing_last lo l : nondecreasing (lo :: l) -> lo <= List.last l lo.
Proof.
  revert lo. induction l as [|a l IH]; intros lo H.
  - simpl. lia.
  - change (lo <= a /\ nondecreasing (a :: l)) in H. destruct H as [Hlo Hl].
    rewrite last_cons_default. specialize (IH a Hl). lia.
Qed.

Lemma nondecreasing_app lo l1 l2 :
  nondecreasing (lo :: l1 ++ l2) ->
  nondecreasing (lo :: l1) /\ nondecreasing (List.last l1 lo :: l2).
Proof.
  revert lo. induction l1 as [|a l1 IH]; intros lo.
  - simpl. tauto.
  - rewrite <- app_comm_cons. intros H.
    change (lo <= a /\ nondecreasing (a :: l1 ++ l2)) in H. destruct H as [Hlo Hl].
    apply IH in Hl as [H1 H2]. rewrite last_cons_default.
    split; [|assumption]. change (lo <= a /\ nondecreasing (a :: l1)). now split.
Qed.

Lemma nondecreasing_from_head ts : nondecreasing ts -> exists lo, nondecreasing (lo :: ts).
Proof.
  destruct ts as [|t ts]; intros H.
  - exists 0. exact I.
  - exists t. split; [lia|assumption].
Qed.

Lemma timely_later lo hi s : timely lo s -> lo <= hi -> timely hi s.
Proof.
  intros Hs Hle k p Hk. destruct (Hs k p Hk). lia.
Qed.

Lemma timely_init lo : timely lo storage.init.
Proof.
  intros k p. simpl. rewrite lookup_empty. discriminate.
Qed.

(** A write leaves a timely store timely, and every prompt of the new store
    is an old one, untouched, or carries a fresh [updated_at]. *)
Lemma writes_timely r s s' lo :
  writes r s s' -> timely lo s -> nondecreasing (lo :: clock_readings r) ->
  timely (List.last (clock_readings r) lo) s' /\
  forall k p', _prompts s' !! k = Some p' ->
    _prompts s !! k = Some p' \/ lo <= p_updated_at p'.
Proof.
  intros Hw Hs Hm. pose proof (nondecreasing_last _ _ Hm) as Hlast.
  destruct Hw; unfold with_prompt; simpl in *.
  - split; [eapply timely_later; eauto|auto].
  - destruct Hm as [Ht1 [Ht2 _]]. split; intros k p'; simpl;
      rewrite lookup_insert_Some; intros [[<- <-]|[_ Hk]]; simpl; auto; try lia.
    destruct (Hs k p' Hk). lia.
  - destruct Hm as [Ht1 _]. destruct (Hs i existing) as [He1 He2]; [assumption|].
    split; intros k p'; simpl;
      rewrite lookup_insert_Some; intros [[<- <-]|[_ Hk]]; simpl; auto; try lia.
    destruct (Hs k p' Hk). lia.
  - destruct Hm as [Ht1 _]. destruct (Hs i existing) as [He1 He2]; [assumption|].
    split; intros k p'; simpl;
      rewrite lookup_insert_Some; intros [[<- <-]|[_ Hk]]; simpl; auto; try lia.
    destruct (Hs k p' Hk). lia.
  - split; intros k p'; simpl; rewrite lookup_delete_Some; intros [_ Hk];
      [exact (Hs k p' Hk)|auto].
  - split; [|auto]. intros k p' Hk. destruct (Hs k p' Hk). simpl in *. lia.
  - split; intros k p'; simpl; rewrite lookup_drop_prompts; intros [Hk _];
      [exact (Hs k p' Hk)|auto].
Qed.

Lemma serve_timely rs s lo :
  timely lo s -> nondecreasing (lo :: clock_trace rs) ->
  timely (List.last (clock_trace rs) lo) (serve rs s) /\
  forall k p', _prompts (serve rs s) !! k = Some p' ->
    _prompts s !! k = Some p' \/ lo <= p_updated_at p'.
Proof.
  revert s lo. induction rs as [|r rs IH]; intros s lo Hs Hm.
  - simpl. auto.
  - unfold clock_trace in *. simpl in *.
    apply nondecreasing_app in Hm as [Hr Hrs].
    destruct (writes_timely r s (handle r s) lo (handle_writes r s) Hs Hr) as [Hs1 Hfresh1].
    destruct (IH _ _ Hs1 Hrs) as [Hs2 Hfresh2].
    rewrite last_app_default. split; [assumption|].
    intros k p' Hk. pose proof (nondecreasing_last _ _ Hr).
    destruct (Hfresh2 k p' Hk) as [Hk1|Hle]; [|right; lia].
    apply Hfresh1; assumption.
Qed.

(** Created-at survives full updates and patches. *)
Lemma writes_created_at r s s' k p :
  writes r s s' -> is_modification r = true -> _prompts s !! k = Some p ->
  exists p', _prompts s' !! k = Some p' /\ p_created_at p' = p_created_at p.
Proof.
  intros Hw Hr Hk. destruct Hw; try discriminate; simpl; eauto.
  - destruct (decide (i = k)) as [->|Hne].
    + rewrite lookup_insert_eq. eexists. split; [reflexivity|]. simpl. congruence.
    + rewrite lookup_insert_ne by assumption. eauto.
  - destruct (decide (i = k)) as [->|Hne].
    + rewrite lookup_insert_eq. eexists. split; [reflexivity|]. simpl. congruence.
    + rewrite lookup_insert_ne by assumption. eauto.
Qed.

Lemma serve_created_at rs s k p :
  forallb is_modification rs = true -> _prompts s !! k = Some p ->
  exists p', _prompts (serve rs s) !! k = Some p' /\ p_created_at p' = p_created_at p.
Proof.
  revert s p. induction rs as [|r rs IH]; intros s p Hrs Hk; simpl in *; [eauto|].
  apply andb_prop in Hrs as [Hr Hrs].
  destruct (writes_created_at r s _ k p (handle_writes r s) Hr Hk) as (p1 & Hk1 & Hc1).
  destruct (IH _ _ Hrs Hk1) as (p2 & Hk2 & Hc2).
  exists p2. split; [assumption|congruence].
Qed.

(** ** Searching *)

Lemma startswith_spec needle hay :
  utils.startswith needle hay = true <-> exists post, hay = needle +:+ post.
Proof.
  revert hay. induction needle as [|a n IH]; intros hay; simpl.
  - split; [eauto|reflexivity].
  - destruct hay as [|b h].
    + split; [discriminate|]. intros [post Hp]. discriminate.
    + rewrite andb_true_iff, Ascii.eqb_eq, IH. split.
      * intros [-> [post ->]]. eauto.
      * intros [post [= -> ->]]. eauto.
Qed.

Lemma contains_spec needle hay :
  utils.contains needle hay = true <-> is_substring needle hay.
Proof.
  unfold is_substring. induction hay as [|c h IH]; simpl.
  - rewrite orb_false_r, startswith_spec. split.
    + intros [post Hp]. exists "", post. exact Hp.
    + intros (pre & post & Hp). destruct pre; [|discriminate]. eauto.
  - rewrite orb_true_iff, startswith_spec, IH. split.
    + intros [[post Hp]|(pre & post & Hp)].
      * exists "", post. exact Hp.
      * exists (String c pre), post. simpl. now rewrite Hp.
    + intros (pre & post & Hp). destruct pre as [|c' pre].
      * left. eauto.
      * right. injection Hp as _ Hp. eauto.
Qed.

Lemma contains_empty hay : utils.contains "" hay = true.
Proof. destruct hay; reflexivity. Qed.

Lemma contains_in_empty needle : utils.contains needle "" = true -> needle = "".
Proof. destruct needle; [reflexivity|discriminate]. Qed.

Lemma is_capital_test c :
  let n := N_of_ascii c in
  (((65 <=? n) && (n <=? 90)) || ((192 <=? n) && (n <=? 214)) ||
   ((216 <=? n) && (n <=? 222)))%N = true <-> is_capital c.
Proof.
  unfold is_capital. cbv zeta.
  rewrite !orb_true_iff, !andb_true_iff, !N.leb_le. tauto.
Qed.

Lemma lower_char_capital c :
  is_capital c -> utils.lower_char c = ascii_of_N (N_of_ascii c + 32).
Proof.
  intros Hc. apply is_capital_test in Hc. unfold utils.lower_char. cbv zeta in *.
  now rewrite Hc.
Qed.

Lemma lower_char_other c : ~ is_capital c -> utils.lower_char c = c.
Proof.
  intros Hc. unfold utils.lower_char. cbv zeta.
  destruct (_ || _ || _)%bool eqn:Ht; [|reflexivity].
  exfalso. apply Hc. now apply is_capital_test.
Qed.

Lemma is_capital_dec c : is_capital c \/ ~ is_capital c.
Proof.
  pose proof (is_capital_test c) as Ht. cbv zeta in Ht.
  destruct (_ || _ || _)%bool; [left; now apply Ht|right].
  intros Hc. apply Ht in Hc. discriminate.
Qed.

(** [utils.lower] computes the lowercased form, and nothing else is one. *)
Lemma lowercased_lower s : lowercased s (utils.lower s).
Proof.
  induction s as [|c s IH]; [constructor|]. cbn [utils.lower].
  destruct (is_capital_dec c) as [Hc|Hc].
  - rewrite lower_char_capital by assumption. now constructor.
  - rewrite lower_char_other by assumption. now constructor.
Qed.

Lemma lowercased_unique s s' : lowercased s s' -> s' = utils.lower s.
Proof.
  induction 1 as [|c s s' Hc _ IH|c s s' Hc _ IH]; [reflexivity| |]; cbn [utils.lower].
  - now rewrite lower_char_capital, IH.
  - now rewrite lower_char_other, IH.
Qed.

Lemma search_selects_lower query p :
  search_selects query p <->
  is_substring (utils.lower query) (utils.lower (p_title p)) \/
  exists d, p_description p = Some d /\
            is_substring (utils.lower query) (utils.lower d).
Proof.
  unfold search_selects. split.
  - intros (q & Hq & [(t & Ht & Hs)|(d & d' & Hd & Hd' & Hs)]);
      apply lowercased_unique in Hq; subst q.
    + left. apply lowercased_unique in Ht. now subst t.
    + right. exists d. split; [assumption|]. apply lowercased_unique in Hd'. now subst d'.
  - intros [Hs|(d & Hd & Hs)]; exists (utils.lower query);
      (split; [apply lowercased_lower|]).
    + left. exists (utils.lower (p_title p)). split; [apply lowercased_lower|assumption].
    + right. exists d, (utils.lower d). split; [assumption|].
      split; [apply lowercased_lower|assumption].
Qed.

Lemma search_keeps_spec query p :
  utils.search_keeps (utils.lower query) p = true <-> search_selects query p.
Proof.
  rewrite search_selects_lower. unfold utils.search_keeps.
  rewrite orb_true_iff, andb_true_iff, contains_spec. split.
  - intros [Ht|[_ Hd]]; [left; assumption|].
    destruct (p_description p) as [d|]; [|discriminate].
    right. exists d. split; [reflexivity|]. now apply contains_spec.
  - intros [Ht|(d & Hd & Hs)]; [left; assumption|].
    rewrite Hd. apply contains_spec in Hs. destruct d as [|c d].
    + left. apply contains_in_empty in Hs. rewrite Hs.
      apply contains_spec, contains_empty.
    + right. split; [reflexivity|assumption].
Qed.

Lemma filter_selected {A} (f : A -> bool) (P : A -> Prop) l :
  (forall x, f x = true <-> P x) -> selected P l (List.filter f l).
Proof.
  intros Hf. induction l as [|x l IH]; simpl; [constructor|].
  destruct (f x) eqn:Hx.
  - apply selected_keep; [now apply Hf|assumption].
  - apply selected_drop; [|assumption]. intros HP. apply Hf in HP. congruence.
Qed.

Lemma filter_all {A} (f : A -> bool) l :
  (forall x, f x = true) -> List.filter f l = l.
Proof.
  intros Hf. induction l as [|x l IH]; simpl; [reflexivity|].
  now rewrite Hf, IH.
Qed.

(** ** Sorting *)

Section sorting.
Context {A : Type} (key : A -> Z).

Lemma insert_by_key_perm x l : Permutation (x :: l) (utils.insert_by_key key x l).
Proof.
  induction l as [|y l IH]; simpl; [reflexivity|].
  destruct (key x <=? key y); [reflexivity|].
  rewrite <- IH. apply perm_swap.
Qed.

Lemma stable_sort_perm l : Permutation l (utils.stable_sort key l).
Proof.
  induction l as [|x l IH]; simpl; [reflexivity|].
  rewrite <- insert_by_key_perm. now constructor.
Qed.

Lemma insert_by_key_ordered x l :
  ordered_by key false l -> ordered_by key false (utils.insert_by_key key x l).
Proof.
  induction l as [|y l IH]; simpl.
  - intros _. split; [intros z []|exact I].
  - intros [Hy Hl]. destruct (key x <=? key y) eqn:Hxy.
    + apply Z.leb_le in Hxy. simpl. repeat split; try assumption.
      intros z [<-|Hz]; [assumption|]. specialize (Hy z Hz). lia.
    + apply Z.leb_gt in Hxy. simpl. split; [|auto].
      intros z Hz. apply (Permutation_in _ (Permutation_sym (insert_by_key_perm x l))) in Hz.
      destruct Hz as [<-|Hz]; [lia|auto].
Qed.

Lemma stable_sort_ordered l : ordered_by key false (utils.stable_sort key l).
Proof.
  induction l as [|x l IH]; simpl; [exact I|]. now apply insert_by_key_ordered.
Qed.

Lemma ordered_snoc l x :
  ordered_by key true l -> (forall y, In y l -> key x <= key y) ->
  ordered_by key true (l ++ [x]).
Proof.
  induction l as [|a l IH]; simpl.
  - intros _ _. split; [intros z []|exact I].
  - intros [Ha Hl] Hx. split.
    + intros z [Hz|[<-|[]]]%in_app_or; auto.
    + apply IH; auto.
Qed.

Lemma rev_ordered l : ordered_by key false l -> ordered_by key true (rev l).
Proof.
  induction l as [|a l IH]; simpl; [trivial|].
  intros [Ha Hl]. apply ordered_snoc; [auto|].
  intros y Hy. apply in_rev in Hy. auto.
Qed.

Lemma with_key_insert t x l :
  with_key key t (utils.insert_by_key key x l) = with_key key t (x :: l).
Proof.
  unfold with_key. induction l as [|y l IH]; simpl; [reflexivity|].
  destruct (key x <=? key y) eqn:Hxy; [reflexivity|].
  apply Z.leb_gt in Hxy. simpl in *. rewrite IH.
  destruct (key x =? t) eqn:Hx; [|reflexivity].
  apply Z.eqb_eq in Hx.
  destruct (key y =? t) eqn:Hy; [|reflexivity].
  apply Z.eqb_eq in Hy. lia.
Qed.

Lemma with_key_stable_sort t l :
  with_key key t (utils.stable_sort key l) = with_key key t l.
Proof.
  induction l as [|x l IH]; simpl; [reflexivity|].
  rewrite with_key_insert. unfold with_key in *. simpl. now rewrite IH.
Qed.

Lemma sorted_perm l reverse : Permutation l (utils.sorted key l reverse).
Proof.
  unfold utils.sorted. destruct reverse; [|apply stable_sort_perm].
  rewrite <- Permutation_rev, <- stable_sort_perm. apply Permutation_rev.
Qed.

Lemma sorted_ordered l reverse : ordered_by key reverse (utils.sorted key l reverse).
Proof.
  unfold utils.sorted. destruct reverse.
  - apply rev_ordered, stable_sort_ordered.
  - apply stable_sort_ordered.
Qed.

Lemma sorted_stable t l reverse :
  with_key key t (utils.sorted key l reverse) = with_key key t l.
Proof.
  unfold utils.sorted. destruct reverse; [|apply with_key_stable_sort].
  unfold with_key. rewrite filter_rev. fold (with_key key t (utils.stable_sort key (rev l))).
  rewrite with_key_stable_sort. unfold with_key. rewrite filter_rev. apply rev_involutive.
Qed.
End sorting.

(** * The properties of the specification *)

(** C1.  A full update or a patch of a stored prompt whose [collection_id]
    is non-empty and names no stored collection signals [InvalidReference]
    and leaves the store, and so the stored prompt with all its fields
    ([updated_at] included), exactly as it was. *)
Theorem bad_reference_rejected_untouched
    s prompt_id existing (u : PromptUpdate) (d : PromptPatch) cid now :
  _prompts s !! prompt_id = Some existing ->
  cid <> "" ->
  _collections s !! cid = None ->
  pb_collection_id u = Some cid ->
  pp_collection_id d = Set_ (Some cid) ->
  api.update_prompt prompt_id u now s = (Raise InvalidReference, s) /\
  api.patch_prompt prompt_id d now s = (Raise InvalidReference, s) /\
  _prompts (snd (api.update_prompt prompt_id u now s)) !! prompt_id = Some existing /\
  _prompts (snd (api.patch_prompt prompt_id d now s)) !! prompt_id = Some existing.
Proof.
  intros Hk Hne Hc Hu Hd.
  rewrite (update_prompt_bad_reference s prompt_id existing u cid now) by assumption.
  rewrite (patch_prompt_bad_reference s prompt_id existing d cid now) by assumption.
  auto.
Qed.

Lemma bad_reference_rejected_untouched_witness :
  api.update_prompt "p1" (mkPromptBase "New" "text" None (Some "ghost")) 9 demo_store
    = (Raise InvalidReference, demo_store) /\
  api.patch_prompt "p1" (mkPromptPatch (Set_ (Some "New")) Unset Unset (Set_ (Some "ghost")))
    9 demo_store = (Raise InvalidReference, demo_store) /\
  _prompts (snd (api.update_prompt "p1" (mkPromptBase "New" "text" None (Some "ghost")) 9
                   demo_store)) !! "p1" = Some demo_p1 /\
  _prompts (snd (api.patch_prompt "p1"
                   (mkPromptPatch (Set_ (Some "New")) Unset Unset (Set_ (Some "ghost")))
                   9 demo_store)) !! "p1" = Some demo_p1.
Proof.
  apply (bad_reference_rejected_untouched demo_store "p1" demo_p1 _ _ "ghost" 9).
  - vm_compute. reflexivity.
  - discriminate.
  - vm_compute. reflexivity.
  - reflexivity.
  - reflexivity.
Defined.

(** C2, as the code has it.  In a store where every entity is filed under
    its own [id] (every store the service reaches is one), deleting a
    stored collection succeeds and removes exactly the prompts whose
    [collection_id] is the id of that collection: a prompt is stored
    afterwards if and only if it was stored before and belongs to another
    collection or to none.  The collection is removed.  If [N] prompts
    belonged to it, the prompts map has [N] entries less; a removed member
    is no longer found; with no member the prompts map is unchanged. *)
Theorem delete_collection_cascades s cid c :
  keys_are_ids s ->
  _collections s !! cid = Some c ->
  exists s',
    api.delete_collection cid s = (Return tt, s') /\
    (forall k p, _prompts s' !! k = Some p <->
                 _prompts s !! k = Some p /\ p_collection_id p <> Some (c_id c)) /\
    _collections s' = delete cid (_collections s) /\
    (forall N,
       size (filter (fun kp : string * Prompt => p_collection_id kp.2 = Some (c_id c))
               (_prompts s)) = N ->
       size (_prompts s) = (N + size (_prompts s'))%nat) /\
    (forall k p, _prompts s !! k = Some p -> p_collection_id p = Some (c_id c) ->
                 api.get_prompt (p_id p) s' = (Raise (NotFound "Prompt not found"), s')) /\
    ((forall k p, _prompts s !! k = Some p -> p_collection_id p <> Some (c_id c)) ->
     _prompts s' = _prompts s).
Proof.
  intros Hids Hc.
  assert (c_id c = cid) as -> by now apply Hids.
  rewrite delete_collection_unfold, Hc. eexists. split; [reflexivity|]. simpl.
  split; [|split; [reflexivity|split; [|split]]].
  - intros k p. rewrite lookup_cascade by assumption.
    destruct (_prompts s !! k) as [q|] eqn:Hk.
    + unfold storage.in_collection. case_bool_decide as Hq.
      * split; [discriminate|]. intros [[= <-] Hne]. contradiction.
      * split; [intros [= <-]; now split|]. now intros [[= <-] _].
    + split; [discriminate|]. now intros [? _].
  - intros N <-. rewrite <- length_members. now apply cascade_size.
  - intros k p Hk Hp. assert (p_id p = k) as -> by now apply Hids.
    unfold api.get_prompt, bind, storage.get_prompt. simpl.
    rewrite lookup_cascade, Hk by assumption.
    unfold storage.in_collection. now rewrite bool_decide_eq_true_2.
  - intros Hnone. apply map_eq. intros k. rewrite lookup_cascade by assumption.
    destruct (_prompts s !! k) as [q|] eqn:Hk; [|reflexivity].
    unfold storage.in_collection. rewrite bool_decide_eq_false_2; [reflexivity|eauto].
Qed.

Lemma delete_collection_cascades_witness :
  exists s',
    api.delete_collection "c1" demo_store = (Return tt, s') /\
    (forall k p, _prompts s' !! k = Some p <->
                 _prompts demo_store !! k = Some p /\
                 p_collection_id p <> Some (c_id demo_c1)) /\
    _collections s' = delete "c1" (_collections demo_store) /\
    (forall N,
       size (filter (fun kp : string * Prompt => p_collection_id kp.2 = Some (c_id demo_c1))
               (_prompts demo_store)) = N ->
       size (_prompts demo_store) = (N + size (_prompts s'))%nat) /\
    (forall k p, _prompts demo_store !! k = Some p ->
                 p_collection_id p = Some (c_id demo_c1) ->
                 api.get_prompt (p_id p) s' = (Raise (NotFound "Prompt not found"), s')) /\
    ((forall k p, _prompts demo_store !! k = Some p ->
                  p_collection_id p <> Some (c_id demo_c1)) ->
     _prompts s' = _prompts demo_store).
Proof.
  apply (delete_collection_cascades demo_store "c1" demo_c1).
  - apply reachable_store_ok. exists demo_requests. reflexivity.
  - vm_compute. reflexivity.
Defined.

(** C2, as stated for every store, fails where a member is not filed under
    its own [id]: the cascade calls [delete_prompt] on [prompt.id], so the
    member stays in the store after its collection is gone. *)
Lemma delete_collection_misses_misfiled_member :
  _collections misfiled_store !! "c1" = Some demo_c1 /\
  _prompts misfiled_store !! "p1" = Some misfiled_prompt /\
  p_collection_id misfiled_prompt = Some (c_id demo_c1) /\
  exists s',
    api.delete_collection "c1" misfiled_store = (Return tt, s') /\
    _collections s' !! "c1" = None /\
    _prompts s' !! "p1" = Some misfiled_prompt /\
    api.get_prompt "p1" s' = (Return misfiled_prompt, s').
Proof.
  split; [vm_compute; reflexivity|].
  split; [vm_compute; reflexivity|].
  split; [reflexivity|].
  eexists. split; [vm_compute; reflexivity|].
  split; [vm_compute; reflexivity|].
  split; vm_compute; reflexivity.
Qed.

(** C3.  A patch of a stored prompt that passes the reference check
    succeeds and stores a prompt in which every field other than
    [collection_id] that the patch gives as the empty string, gives as null
    or does not mention has its old value, as have [collection_id] when it
    is not mentioned, [id] and [created_at]; [updated_at] is the current
    time, whether or not any field changed. *)
Theorem patch_empty_string_is_no_change s prompt_id existing d now :
  _prompts s !! prompt_id = Some existing ->
  Prompt_valid existing = true ->
  patch_within_limits d = true ->
  reference_passes s (patch_value (pp_collection_id d)) ->
  exists p',
    api.patch_prompt prompt_id d now s = (Return (Some p'), with_prompt prompt_id p' s) /\
    _prompts (with_prompt prompt_id p' s) !! prompt_id = Some p' /\
    (no_change (pp_title d) -> p_title p' = p_title existing) /\
    (no_change (pp_content d) -> p_content p' = p_content existing) /\
    (no_change (pp_description d) -> p_description p' = p_description existing) /\
    (pp_collection_id d = Unset -> p_collection_id p' = p_collection_id existing) /\
    p_id p' = p_id existing /\
    p_created_at p' = p_created_at existing /\
    p_updated_at p' = now.
Proof.
  intros Hk He Hd Hr. exists (merge_patch existing d now).
  split; [now apply patch_prompt_ok|].
  split; [apply lookup_insert_eq|].
  unfold merge_patch, no_change. simpl.
  repeat split.
  - intros [->|[->| ->]]; reflexivity.
  - intros [->|[->| ->]]; reflexivity.
  - intros [->|[->| ->]]; reflexivity.
  - intros ->. reflexivity.
Qed.

Lemma patch_empty_string_is_no_change_witness :
  exists p',
    api.patch_prompt "p1" (mkPromptPatch Unset Unset (Set_ (Some "")) Unset) 9 demo_store
      = (Return (Some p'), with_prompt "p1" p' demo_store) /\
    _prompts (with_prompt "p1" p' demo_store) !! "p1" = Some p' /\
    (no_change Unset -> p_title p' = "Hello World") /\
    (no_change Unset -> p_content p' = "Say hello") /\
    (no_change (Set_ (Some "")) -> p_description p' = Some "a greeting") /\
    (Unset = Unset -> p_collection_id p' = Some "c1") /\
    p_id p' = "p1" /\
    p_created_at p' = 2 /\
    p_updated_at p' = 9.
Proof.
  apply (patch_empty_string_is_no_change demo_store "p1" demo_p1
           (mkPromptPatch Unset Unset (Set_ (Some "")) Unset) 9).
  - vm_compute. reflexivity.
  - reflexivity.
  - reflexivity.
  - intros cid Hcid. discriminate.
Defined.

(** C6.  A full update of a stored prompt that passes the reference check
    succeeds and stores, under the same key, a prompt whose [title],
    [content], [description] and [collection_id] are the supplied values
    (an absent description or collection id clears the field), whose [id]
    and [created_at] are those of the existing record and whose
    [updated_at] is the current time. *)
Theorem full_update_replaces_fields s prompt_id existing (u : PromptUpdate) now :
  _prompts s !! prompt_id = Some existing ->
  PromptBase_valid u = true ->
  reference_passes s (pb_collection_id u) ->
  exists p',
    api.update_prompt prompt_id u now s = (Return (Some p'), with_prompt prompt_id p' s) /\
    _prompts (with_prompt prompt_id p' s) !! prompt_id = Some p' /\
    p_title p' = pb_title u /\
    p_content p' = pb_content u /\
    p_description p' = pb_description u /\
    p_collection_id p' = pb_collection_id u /\
    p_id p' = p_id existing /\
    p_created_at p' = p_created_at existing /\
    p_updated_at p' = now.
Proof.
  intros Hk Hu Hr. exists (replace_fields existing u now).
  split; [now apply update_prompt_ok|].
  split; [apply lookup_insert_eq|].
  repeat split.
Qed.

Lemma full_update_replaces_fields_witness :
  exists p',
    api.update_prompt "p1" (mkPromptBase "Bye" "Say goodbye" None None) 9 demo_store
      = (Return (Some p'), with_prompt "p1" p' demo_store) /\
    _prompts (with_prompt "p1" p' demo_store) !! "p1" = Some p' /\
    p_title p' = "Bye" /\
    p_content p' = "Say goodbye" /\
    p_description p' = None /\
    p_collection_id p' = None /\
    p_id p' = "p1" /\
    p_created_at p' = 2 /\
    p_updated_at p' = 9.
Proof.
  apply (full_update_replaces_fields demo_store "p1" demo_p1
           (mkPromptBase "Bye" "Say goodbye" None None) 9).
  - vm_compute. reflexivity.
  - reflexivity.
  - intros cid Hcid. discriminate.
Defined.

(** C9.  A patch cannot clear the [collection_id] of a stored prompt.  When
    the patch leaves [collection_id] out, or gives null or the empty string,
    the patch succeeds and the stored [collection_id] is the old one; after
    any successful patch the stored [collection_id] is the old one or a
    non-empty one.  A full update that supplies no [collection_id] stores
    none: that is how a prompt is detached. *)
Theorem patch_cannot_clear_collection
    s prompt_id existing (d : PromptPatch) (u : PromptUpdate) now :
  _prompts s !! prompt_id = Some existing ->
  Prompt_valid existing = true ->
  patch_within_limits d = true ->
  PromptBase_valid u = true ->
  pb_collection_id u = None ->
  (no_change (pp_collection_id d) ->
   exists p',
     api.patch_prompt prompt_id d now s = (Return (Some p'), with_prompt prompt_id p' s) /\
     p_collection_id p' = p_collection_id existing) /\
  (forall p' s',
     api.patch_prompt prompt_id d now s = (Return (Some p'), s') ->
     _prompts s' !! prompt_id = Some p' /\
     (p_collection_id p' = p_collection_id existing \/
      truthy (p_collection_id p') = true)) /\
  (exists p',
     api.update_prompt prompt_id u now s = (Return (Some p'), with_prompt prompt_id p' s) /\
     p_collection_id p' = None).
Proof.
  intros Hk He Hd Hu Hnone. repeat split.
  - intros Hno. exists (merge_patch existing d now). split.
    + apply patch_prompt_ok; try assumption.
      intros cid Hcid Hne. destruct Hno as [Hno|[Hno|Hno]]; rewrite Hno in Hcid;
        simpl in Hcid; congruence.
    + unfold merge_patch. simpl. destruct Hno as [->|[->| ->]]; reflexivity.
  - destruct (reference_passes_dec s (patch_value (pp_collection_id d)))
      as [Hr|(cid & Hcid & Hne & Hc)].
    + rewrite (patch_prompt_ok s prompt_id existing d now) in H by assumption.
      injection H as <- <-. apply lookup_insert_eq.
    + rewrite (patch_prompt_bad_reference s prompt_id existing d cid now) in H;
        try assumption; [discriminate|].
      destruct (pp_collection_id d); simpl in Hcid; congruence.
  - destruct (reference_passes_dec s (patch_value (pp_collection_id d)))
      as [Hr|(cid & Hcid & Hne & Hc)].
    + rewrite (patch_prompt_ok s prompt_id existing d now) in H by assumption.
      injection H as <- <-. unfold merge_patch, merged_opt. simpl.
      destruct (pp_collection_id d) as [|[v|]]; auto.
      destruct (String.eqb v "") eqn:Hv; auto.
      right. apply truthy_Some. now apply String.eqb_neq.
    + rewrite (patch_prompt_bad_reference s prompt_id existing d cid now) in H;
        try assumption; [discriminate|].
      destruct (pp_collection_id d); simpl in Hcid; congruence.
  - exists (replace_fields existing u now). split; [|exact Hnone].
    apply update_prompt_ok; try assumption.
    intros cid Hcid. congruence.
Qed.

Lemma patch_cannot_clear_collection_witness :
  (no_change (Set_ (Some "")) ->
   exists p',
     api.patch_prompt "p1" (mkPromptPatch (Set_ (Some "Hi")) Unset Unset (Set_ (Some "")))
       9 demo_store = (Return (Some p'), with_prompt "p1" p' demo_store) /\
     p_collection_id p' = p_collection_id demo_p1) /\
  (forall p' s',
     api.patch_prompt "p1" (mkPromptPatch (Set_ (Some "Hi")) Unset Unset (Set_ (Some "")))
       9 demo_store = (Return (Some p'), s') ->
     _prompts s' !! "p1" = Some p' /\
     (p_collection_id p' = p_collection_id demo_p1 \/
      truthy (p_collection_id p') = true)) /\
  (exists p',
     api.update_prompt "p1" (mkPromptBase "Bye" "Say goodbye" None None) 9 demo_store
       = (Return (Some p'), with_prompt "p1" p' demo_store) /\
     p_collection_id p' = None).
Proof.
  apply (patch_cannot_clear_collection demo_store "p1" demo_p1
           (mkPromptPatch (Set_ (Some "Hi")) Unset Unset (Set_ (Some "")))
           (mkPromptBase "Bye" "Say goodbye" None None) 9).
  - vm_compute. reflexivity.
  - reflexivity.
  - reflexivity.
  - reflexivity.
  - reflexivity.
Defined.

(** C7.  [search_prompts] returns exactly the prompts, in their input order,
    for which the lowercased query is a substring of the lowercased title,
    or of the lowercased description when the prompt has one (a prompt
    without description is selected on its title alone); with the empty
    query it returns its input unchanged. *)
Theorem search_returns_the_matches (prompts : list Prompt) (query : string) :
  selected (search_selects query) prompts (utils.search_prompts prompts query) /\
  utils.search_prompts prompts "" = prompts.
Proof.
  split.
  - apply filter_selected. intros p. apply search_keeps_spec.
  - unfold utils.search_prompts. apply filter_all. intros p.
    unfold utils.search_keeps. simpl utils.lower. now rewrite contains_empty.
Qed.

(** C8.  [sort_prompts_by_date] returns a permutation of its input, ordered
    by [created_at] (descending when the flag is set, ascending otherwise),
    and it is stable: for each date, the prompts created at that date come
    in the output in the order they have in the input. *)
Theorem sort_by_date_is_stable (prompts : list Prompt) (descending : bool) :
  Permutation prompts (utils.sort_prompts_by_date prompts descending) /\
  ordered_by p_created_at descending (utils.sort_prompts_by_date prompts descending) /\
  forall t, with_key p_created_at t (utils.sort_prompts_by_date prompts descending)
            = with_key p_created_at t prompts.
Proof.
  unfold utils.sort_prompts_by_date. split; [apply sorted_perm|].
  split; [apply sorted_ordered|]. intros t. apply sorted_stable.
Qed.

(** C10.  In every store reached from the empty one by requests to the
    service, each prompt and each collection is filed under its own [id];
    so a successful [get_prompt] or [get_collection] returns an entity
    whose [id] is the one asked for. *)
Theorem entities_are_filed_under_their_id (rs : list request) :
  let s := serve rs storage.init in
  (forall k p, _prompts s !! k = Some p -> p_id p = k) /\
  (forall k c, _collections s !! k = Some c -> c_id c = k) /\
  (forall k p s', api.get_prompt k s = (Return p, s') -> p_id p = k) /\
  (forall k c s', api.get_collection k s = (Return c, s') -> c_id c = k).
Proof.
  intros s.
  destruct (serve_store_ok rs storage.init store_ok_init) as ([Hp Hc] & _ & _).
  fold s in Hp, Hc. repeat split; try assumption.
  - intros k p s'. unfold api.get_prompt, bind, storage.get_prompt.
    destruct (_prompts s !! k) as [q|] eqn:Hk; [|discriminate].
    intros [= <- _]. now apply Hp.
  - intros k c s'. unfold api.get_collection, bind, storage.get_collection.
    destruct (_collections s !! k) as [q|] eqn:Hk; [|discriminate].
    intros [= <- _]. now apply Hc.
Qed.

Lemma entities_are_filed_under_their_id_witness :
  p_id demo_p1 = "p1" /\ c_id demo_c1 = "c1".
Proof.
  destruct (entities_are_filed_under_their_id demo_requests) as (Hp & Hc & Hgp & Hgc).
  split.
  - apply (Hgp "p1" demo_p1 demo_store). vm_compute. reflexivity.
  - apply (Hc "c1" demo_c1). vm_compute. reflexivity.
Defined.

(** C5, as the code has it.  A full update or a patch changes the
    [created_at] of no stored prompt, however many of them follow each
    other.  When the clock does not run backwards, the [updated_at] of the
    prompt filed under a key never decreases as further requests are
    served, and every stored prompt has [created_at <= updated_at] at all
    times. *)
Theorem timestamps_are_monotone :
  (forall s rs k p,
     forallb is_modification rs = true ->
     _prompts s !! k = Some p ->
     exists p', _prompts (serve rs s) !! k = Some p' /\
                p_created_at p' = p_created_at p) /\
  (forall rs1 rs2 k p p',
     nondecreasing (clock_trace (rs1 ++ rs2)) ->
     _prompts (serve rs1 storage.init) !! k = Some p ->
     _prompts (serve (rs1 ++ rs2) storage.init) !! k = Some p' ->
     p_updated_at p <= p_updated_at p') /\
  (forall rs k p,
     nondecreasing (clock_trace rs) ->
     _prompts (serve rs storage.init) !! k = Some p ->
     p_created_at p <= p_updated_at p).
Proof.
  split; [|split].
  - intros s rs k p. apply serve_created_at.
  - intros rs1 rs2 k p p' Hm Hk Hk'.
    apply nondecreasing_from_head in Hm as [lo Hm].
    unfold clock_trace in Hm. rewrite map_app, concat_app in Hm.
    apply nondecreasing_app in Hm as [Hm1 Hm2].
    destruct (serve_timely rs1 storage.init lo (timely_init lo) Hm1) as [Ht1 _].
    rewrite serve_app in Hk'.
    destruct (serve_timely rs2 _ _ Ht1 Hm2) as [_ Hfresh].
    destruct (Hfresh k p' Hk') as [Hsame|Hle].
    + assert (p' = p) as -> by congruence. lia.
    + destruct (Ht1 k p Hk). fold (clock_trace rs1) in Hle. lia.
  - intros rs k p Hm Hk.
    apply nondecreasing_from_head in Hm as [lo Hm].
    destruct (serve_timely rs storage.init lo (timely_init lo) Hm) as [Ht _].
    now destruct (Ht k p Hk).
Qed.

Lemma timestamps_are_monotone_witness :
  (exists p', _prompts (serve demo_changes demo_store) !! "p1" = Some p' /\
              p_created_at p' = p_created_at demo_p1) /\
  p_updated_at demo_p1 <= p_updated_at demo_p1_changed /\
  p_created_at demo_p1_changed <= p_updated_at demo_p1_changed.
Proof.
  destruct timestamps_are_monotone as (Hcreated & Hupdated & Hordered).
  split; [|split].
  - apply (Hcreated demo_store demo_changes "p1" demo_p1).
    + reflexivity.
    + vm_compute. reflexivity.
  - apply (Hupdated demo_requests demo_changes "p1" demo_p1 demo_p1_changed).
    + simpl. lia.
    + vm_compute. reflexivity.
    + vm_compute. reflexivity.
  - apply (Hordered (demo_requests ++ demo_changes)%list "p1" demo_p1_changed).
    + simpl. lia.
    + vm_compute. reflexivity.
Defined.

(** C5, as stated without a condition on the clock, fails: the handlers
    store the readings of the clock as they come.  When the clock steps
    back between the creation of a prompt and its update, [updated_at]
    decreases and falls below [created_at]. *)
Lemma timestamps_follow_the_clock_back :
  exists p p',
    _prompts (serve (take 1 clock_steps_back) storage.init) !! "p1" = Some p /\
    _prompts (serve clock_steps_back storage.init) !! "p1" = Some p' /\
    fst (api.update_prompt "p1" (mkPromptBase "Plan" "Plan my day" None None) 3
           (serve (take 1 clock_steps_back) storage.init)) = Return (Some p') /\
    p_updated_at p' < p_updated_at p /\
    p_updated_at p' < p_created_at p'.
Proof.
  exists (mkPrompt "Plan" "Plan my day" None None "p1" 5 5).
  exists (mkPrompt "Plan" "Plan my day" None None "p1" 5 3).
  repeat split; vm_compute; reflexivity.
Qed.

(** ** Deleting a collection that is not stored *)

(** In a store that satisfies the invariants, no prompt names a collection
    that is not stored, unless by the empty string. *)
Lemma members_of_missing s cid :
  references_resolve s -> cid <> "" -> _collections s !! cid = None -> members cid s = [].
Proof.
  intros Hr Hne Hc. destruct (members cid s) as [|p l] eqn:Hm; [reflexivity|].
  assert (p ∈ members cid s) as Hp by (rewrite Hm; left).
  apply elem_of_members in Hp as [[k Hk] Hin].
  destruct (Hr k p cid Hk Hin Hne) as [c Hc']. congruence.
Qed.

Lemma delete_missing_collection_reachable s cid :
  reachable s -> cid <> "" -> _collections s !! cid = None ->
  api.delete_collection cid s = (Raise (NotFound "Collection not found"), s).
Proof.
  intros Hs Hne Hc. apply reachable_store_ok in Hs as (_ & _ & Hr).
  rewrite delete_collection_unfold, Hc, members_of_missing by assumption.
  simpl. rewrite delete_id by assumption. now destruct s.
Qed.

(** C4.  The handler deletes the prompts that name the collection before it
    looks the collection up.  Asked to delete a collection that is not
    stored, it signals [NotFound], and the prompts whose [collection_id] is
    the given id are gone all the same: the prompt created with the empty
    string as [collection_id], when the id is the empty string, and a
    prompt put in the store with a dangling reference. *)
Theorem delete_missing_collection_drops_prompts :
  (_collections unfiled_store !! "" = None /\
   _prompts unfiled_store !! "p1" = Some unfiled_prompt /\
   api.delete_collection "" unfiled_store
     = (Raise (NotFound "Collection not found"), storage.init) /\
   _prompts (snd (api.delete_collection "" unfiled_store)) !! "p1" = None) /\
  (_collections dangling_store !! "ghost" = None /\
   _prompts dangling_store !! "p1" = Some dangling_prompt /\
   api.delete_collection "ghost" dangling_store
     = (Raise (NotFound "Collection not found"), storage.init) /\
   _prompts (snd (api.delete_collection "ghost" dangling_store)) !! "p1" = None).
Proof.
  repeat split; vm_compute; reflexivity.
Qed.

(** * The scenarios of the specification, run on the model *)

Example scenario_search_lowercase :
  fst (api.list_prompts None (Some "hello") demo_store)
  = Return (api.mkPromptList [demo_p1] 1).
Proof. vm_compute. reflexivity. Qed.

Example scenario_search_uppercase :
  fst (api.list_prompts None (Some "GREETING") demo_store)
  = Return (api.mkPromptList [demo_p1] 1).
Proof. vm_compute. reflexivity. Qed.

Example scenario_search_accented :
  utils.search_prompts
    [mkPrompt (String (ascii_of_N 201) "t" +:+ String (ascii_of_N 233) "") "text" None None
       "p1" 1 1]
    (String (ascii_of_N 233) "T" +:+ String (ascii_of_N 201) "")
  = [mkPrompt (String (ascii_of_N 201) "t" +:+ String (ascii_of_N 233) "") "text" None None
       "p1" 1 1].
Proof. vm_compute. reflexivity. Qed.

Example scenario_listing_newest_first :
  fst (api.list_prompts None None demo_store)
  = Return (api.mkPromptList [demo_p2; demo_p1] 2).
Proof. vm_compute. reflexivity. Qed.

Example scenario_filter_then_cascade :
  fst (api.list_prompts (Some "c1") None demo_store)
    = Return (api.mkPromptList [demo_p1] 1) /\
  fst (api.get_prompt "p1" (handle (DeleteCollection "c1") demo_store))
    = Raise (NotFound "Prompt not found") /\
  fst (api.get_prompt "p2" (handle (DeleteCollection "c1") demo_store))
    = Return demo_p2.
Proof. repeat split; vm_compute; reflexivity. Qed.

Example scenario_patch_empty_description :
  fst (api.patch_prompt "p1" (mkPromptPatch Unset Unset (Set_ (Some "")) Unset) 9 demo_store)
  = Return (Some (mkPrompt "Hello World" "Say hello" (Some "a greeting") (Some "c1")
                    "p1" 2 9)).
Proof. vm_compute. reflexivity. Qed.

Example scenario_stable_sort :
  utils.sorted (fun x : Z * string => fst x)
    [(2, "a"); (1, "b"); (2, "c"); (1, "d")] true
  = [(2, "a"); (2, "c"); (1, "b"); (1, "d")].
Proof. reflexivity. Qed.


(** * Further properties of the handlers *)

Lemma create_prompt_ok s d i t1 t2 :
  PromptBase_valid d = true -> reference_passes s (pb_collection_id d) ->
  api.create_prompt d i t1 t2 s =
    (Return (new_prompt d i t1 t2), with_prompt i (new_prompt d i t1 t2) s).
Proof.
  intros Hv Hr. unfold api.create_prompt, bind.
  rewrite reference_check_passes by assumption.
  unfold Prompt_new. fold (PromptBase_valid d). now rewrite Hv.
Qed.

Lemma get_prompt_found s k p :
  _prompts s !! k = Some p -> api.get_prompt k s = (Return p, s).
Proof.
  intros Hk. unfold api.get_prompt, bind, storage.get_prompt. now rewrite Hk.
Qed.

Lemma get_prompt_missing s k :
  _prompts s !! k = None -> api.get_prompt k s = (Raise (NotFound "Prompt not found"), s).
Proof.
  intros Hk. unfold api.get_prompt, bind, storage.get_prompt. now rewrite Hk.
Qed.

Lemma delete_prompt_missing s k :
  _prompts s !! k = None -> api.delete_prompt k s = (Raise (NotFound "Prompt not found"), s).
Proof.
  intros Hk. unfold api.delete_prompt, bind, storage.delete_prompt. now rewrite Hk.
Qed.

Lemma delete_prompt_found s k p :
  _prompts s !! k = Some p ->
  api.delete_prompt k s = (Return tt, mkStorage (delete k (_prompts s)) (_collections s)).
Proof.
  intros Hk. unfold api.delete_prompt, bind, storage.delete_prompt. now rewrite Hk.
Qed.

(** Creating a prompt from well-formed data whose reference check passes
    returns the new prompt, files it under the fresh id and touches nothing
    else; the prompt can be read back, and the store has one prompt more
    unless the id was in use, in which case the old prompt is replaced. *)
Theorem create_prompt_then_get s (d : PromptCreate) new_id t_created t_updated :
  PromptBase_valid d = true ->
  reference_passes s (pb_collection_id d) ->
  exists p s',
    api.create_prompt d new_id t_created t_updated s = (Return p, s') /\
    p = mkPrompt (pb_title d) (pb_content d) (pb_description d) (pb_collection_id d)
          new_id t_created t_updated /\
    api.get_prompt new_id s' = (Return p, s') /\
    _collections s' = _collections s /\
    (forall k, k <> new_id -> _prompts s' !! k = _prompts s !! k) /\
    (_prompts s !! new_id = None -> size (_prompts s') = S (size (_prompts s))) /\
    (is_Some (_prompts s !! new_id) -> size (_prompts s') = size (_prompts s)).
Proof.
  intros Hv Hr. exists (new_prompt d new_id t_created t_updated).
  eexists. split; [now apply create_prompt_ok|].
  split; [reflexivity|].
  split; [apply get_prompt_found, lookup_insert_eq|].
  split; [reflexivity|]. simpl.
  split; [intros k Hk; now apply lookup_insert_ne|].
  split.
  - intros Hnone. now apply map_size_insert_None.
  - intros Hsome. now apply map_size_insert_Some.
Qed.

Lemma create_prompt_then_get_witness :
  exists p s',
    api.create_prompt (mkPromptBase "Plan" "Plan my day" None (Some "c1")) "p3" 6 7 demo_store
      = (Return p, s') /\
    p = mkPrompt "Plan" "Plan my day" None (Some "c1") "p3" 6 7 /\
    api.get_prompt "p3" s' = (Return p, s') /\
    _collections s' = _collections demo_store /\
    (forall k, k <> "p3" -> _prompts s' !! k = _prompts demo_store !! k) /\
    (_prompts demo_store !! "p3" = None ->
     size (_prompts s') = S (size (_prompts demo_store))) /\
    (is_Some (_prompts demo_store !! "p3") ->
     size (_prompts s') = size (_prompts demo_store)).
Proof.
  apply (create_prompt_then_get demo_store
           (mkPromptBase "Plan" "Plan my day" None (Some "c1")) "p3" 6 7).
  - reflexivity.
  - intros cid [= <-] _. exists demo_c1. vm_compute. reflexivity.
Defined.

(** Creating a prompt whose [collection_id] is non-empty and names no stored
    collection raises the 400 error and stores nothing. *)
Theorem create_prompt_bad_reference s (d : PromptCreate) cid new_id t_created t_updated :
  pb_collection_id d = Some cid ->
  cid <> "" ->
  _collections s !! cid = None ->
  api.create_prompt d new_id t_created t_updated s
    = (Raise (HTTPException 400 "Collection not found"), s).
Proof.
  intros Hd Hne Hc. unfold api.create_prompt, bind.
  now rewrite Hd, reference_check_fails.
Qed.

Lemma create_prompt_bad_reference_witness :
  api.create_prompt (mkPromptBase "Plan" "Plan my day" None (Some "ghost")) "p3" 6 7 demo_store
    = (Raise (HTTPException 400 "Collection not found"), demo_store).
Proof.
  apply (create_prompt_bad_reference demo_store _ "ghost" "p3" 6 7).
  - reflexivity.
  - discriminate.
  - vm_compute. reflexivity.
Defined.

(** On an id that is not stored, reading, updating, patching and deleting a
    prompt all raise the 404 error with the same detail and leave the store
    as it was, whatever the payload: the lookup comes before the reference
    check. *)
Theorem missing_prompt_is_not_found s prompt_id (u : PromptUpdate) (d : PromptPatch) now :
  _prompts s !! prompt_id = None ->
  api.get_prompt prompt_id s = (Raise (HTTPException 404 "Prompt not found"), s) /\
  api.update_prompt prompt_id u now s = (Raise (HTTPException 404 "Prompt not found"), s) /\
  api.patch_prompt prompt_id d now s = (Raise (HTTPException 404 "Prompt not found"), s) /\
  api.delete_prompt prompt_id s = (Raise (HTTPException 404 "Prompt not found"), s).
Proof.
  intros Hk. split; [now apply get_prompt_missing|].
  split; [now apply update_prompt_missing|].
  split; [now apply patch_prompt_missing|].
  now apply delete_prompt_missing.
Qed.

Lemma missing_prompt_is_not_found_witness :
  api.get_prompt "p9" demo_store = (Raise (HTTPException 404 "Prompt not found"), demo_store) /\
  api.update_prompt "p9" (mkPromptBase "Plan" "text" None (Some "ghost")) 9 demo_store
    = (Raise (HTTPException 404 "Prompt not found"), demo_store) /\
  api.patch_prompt "p9" (mkPromptPatch Unset Unset Unset (Set_ (Some "ghost"))) 9 demo_store
    = (Raise (HTTPException 404 "Prompt not found"), demo_store) /\
  api.delete_prompt "p9" demo_store
    = (Raise (HTTPException 404 "Prompt not found"), demo_store).
Proof.
  apply (missing_prompt_is_not_found demo_store "p9").
  vm_compute. reflexivity.
Defined.

(** Deleting a stored prompt succeeds and removes that prompt alone: the
    other prompts and the collections stay, the store has one prompt less,
    the prompt is no longer found and a second delete raises the 404 error
    without changing anything. *)
Theorem delete_prompt_removes_one s prompt_id p :
  _prompts s !! prompt_id = Some p ->
  exists s',
    api.delete_prompt prompt_id s = (Return tt, s') /\
    _prompts s' !! prompt_id = None /\
    (forall k, k <> prompt_id -> _prompts s' !! k = _prompts s !! k) /\
    _collections s' = _collections s /\
    size (_prompts s) = S (size (_prompts s')) /\
    api.get_prompt prompt_id s' = (Raise (HTTPException 404 "Prompt not found"), s') /\
    api.delete_prompt prompt_id s' = (Raise (HTTPException 404 "Prompt not found"), s').
Proof.
  intros Hk. eexists. split; [now apply (delete_prompt_found s prompt_id p)|]. simpl.
  split; [apply lookup_delete_eq|].
  split; [intros k Hne; now apply lookup_delete_ne|].
  split; [reflexivity|].
  split.
  - rewrite <- (insert_delete_id (_prompts s) prompt_id p) at 1 by assumption.
    apply map_size_insert_None, lookup_delete_eq.
  - split; [apply get_prompt_missing|apply delete_prompt_missing]; apply lookup_delete_eq.
Qed.

Lemma delete_prompt_removes_one_witness :
  exists s',
    api.delete_prompt "p2" demo_store = (Return tt, s') /\
    _prompts s' !! "p2" = None /\
    (forall k, k <> "p2" -> _prompts s' !! k = _prompts demo_store !! k) /\
    _collections s' = _collections demo_store /\
    size (_prompts demo_store) = S (size (_prompts s')) /\
    api.get_prompt "p2" s' = (Raise (HTTPException 404 "Prompt not found"), s') /\
    api.delete_prompt "p2" s' = (Raise (HTTPException 404 "Prompt not found"), s').
Proof.
  apply (delete_prompt_removes_one demo_store "p2" demo_p2).
  vm_compute. reflexivity.
Defined.

(** Creating a collection from well-formed data returns the new collection
    and files it under the fresh id; it can be read back, the prompts and
    the other collections are untouched. *)
Theorem create_collection_then_get s (d : CollectionCreate) new_id t_created :
  CollectionCreate_valid d = true ->
  exists c s',
    api.create_collection d new_id t_created s = (Return c, s') /\
    c = mkCollection (cc_name d) (cc_description d) new_id t_created /\
    api.get_collection new_id s' = (Return c, s') /\
    _prompts s' = _prompts s /\
    (forall k, k <> new_id -> _collections s' !! k = _collections s !! k).
Proof.
  intros Hv. exists (new_collection d new_id t_created). eexists.
  unfold api.create_collection, Collection_new.
  unfold CollectionCreate_valid in Hv. rewrite Hv.
  split; [reflexivity|]. split; [reflexivity|].
  unfold api.get_collection, bind, storage.get_collection. simpl.
  rewrite lookup_insert_eq. split; [reflexivity|]. split; [reflexivity|].
  intros k Hk. now apply lookup_insert_ne.
Qed.

Lemma create_collection_then_get_witness :
  exists c s',
    api.create_collection (mkCollectionCreate "Coding" (Some "snippets")) "c2" 8 demo_store
      = (Return c, s') /\
    c = mkCollection "Coding" (Some "snippets") "c2" 8 /\
    api.get_collection "c2" s' = (Return c, s') /\
    _prompts s' = _prompts demo_store /\
    (forall k, k <> "c2" -> _collections s' !! k = _collections demo_store !! k).
Proof.
  apply (create_collection_then_get demo_store
           (mkCollectionCreate "Coding" (Some "snippets")) "c2" 8).
  reflexivity.
Defined.

(** The handlers that read (health check, the two listings, the two gets)
    return the store they were given, whatever they are asked and whether
    they succeed or raise; a collection that is not stored is reported by
    the 404 error. *)
Theorem reads_leave_the_store s version collection_id search prompt_id cid :
  snd (api.health_check version s) = s /\
  snd (api.list_prompts collection_id search s) = s /\
  snd (api.get_prompt prompt_id s) = s /\
  snd (api.list_collections s) = s /\
  snd (api.get_collection cid s) = s /\
  (_collections s !! cid = None ->
   api.get_collection cid s = (Raise (HTTPException 404 "Collection not found"), s)).
Proof.
  repeat split.
  - unfold api.get_prompt, bind, storage.get_prompt.
    now destruct (_prompts s !! prompt_id).
  - unfold api.get_collection, bind, storage.get_collection.
    now destruct (_collections s !! cid).
  - intros Hc. unfold api.get_collection, bind, storage.get_collection. now rewrite Hc.
Qed.

Lemma reads_leave_the_store_witness :
  snd (api.health_check "0.1.0" demo_store) = demo_store /\
  snd (api.list_prompts (Some "c1") (Some "hello") demo_store) = demo_store /\
  snd (api.get_prompt "p9" demo_store) = demo_store /\
  snd (api.list_collections demo_store) = demo_store /\
  snd (api.get_collection "c9" demo_store) = demo_store /\
  (_collections demo_store !! "c9" = None ->
   api.get_collection "c9" demo_store
     = (Raise (HTTPException 404 "Collection not found"), demo_store)).
Proof.
  exact (reads_leave_the_store demo_store "0.1.0" (Some "c1") (Some "hello") "p9" "c9").
Defined.

(** ** Listings *)

Lemma In_values {A} (m : gmap string A) (x : A) :
  In x (map_to_list m).*2 <-> exists k, m !! k = Some x.
Proof.
  rewrite <- list_elem_of_In, list_elem_of_fmap. split.
  - intros [[k y] [-> Hy]]. apply elem_of_map_to_list in Hy. eauto.
  - intros [k Hk]. exists (k, x). split; [reflexivity|]. now apply elem_of_map_to_list.
Qed.

Lemma length_values {A} (m : gmap string A) : length (map_to_list m).*2 = size m.
Proof. now rewrite length_fmap, length_map_to_list. Qed.

Lemma In_filter_by_collection ps c p :
  In p (utils.filter_prompts_by_collection ps c) <-> In p ps /\ p_collection_id p = Some c.
Proof.
  unfold utils.filter_prompts_by_collection. rewrite filter_In.
  now rewrite bool_decide_eq_true.
Qed.

Lemma In_search ps q p :
  In p (utils.search_prompts ps q) <-> In p ps /\ search_selects q p.
Proof.
  unfold utils.search_prompts. now rewrite filter_In, search_keeps_spec.
Qed.

(** [list_prompts] returns, newest first, the stored prompts that pass the
    filters in force (a filter that is absent or the empty string is not in
    force), with their number as [total]; without filters every stored
    prompt is listed. *)
Theorem list_prompts_lists_the_matches s collection_id search :
  exists l,
    api.list_prompts collection_id search s
      = (Return (api.mkPromptList l (Z.of_nat (length l))), s) /\
    ordered_by p_created_at true l /\
    (forall p, In p l <->
               (exists k, _prompts s !! k = Some p) /\ listed collection_id search p) /\
    (length l <= size (_prompts s))%nat /\
    (truthy collection_id = false -> truthy search = false ->
     length l = size (_prompts s)).
Proof.
  unfold api.list_prompts, bind, storage.get_all_prompts, ret.
  set (all := (map_to_list (_prompts s)).*2).
  set (filtered := match collection_id with
                   | Some cid => if truthy collection_id
                                 then utils.filter_prompts_by_collection all cid else all
                   | None => all
                   end).
  set (found := match search with
                | Some q => if truthy search then utils.search_prompts filtered q else filtered
                | None => filtered
                end).
  exists (utils.sort_prompts_by_date found true).
  split; [reflexivity|].
  split; [apply sorted_ordered|].
  assert (Hfiltered : forall p, In p filtered <->
            In p all /\ forall c, collection_id = Some c -> c <> "" -> p_collection_id p = Some c).
  { intros p. unfold filtered. destruct collection_id as [cid|].
    - destruct (truthy (Some cid)) eqn:Ht.
      + rewrite In_filter_by_collection. split.
        * intros [Hp Hc]. split; [assumption|]. now intros c [= <-] _.
        * intros [Hp Hc]. split; [assumption|]. apply Hc; [reflexivity|].
          now apply truthy_Some.
      + apply truthy_Some_false in Ht. split; [|tauto].
        intros Hp. split; [assumption|]. intros c [= <-] Hne. contradiction.
    - split; [|tauto]. intros Hp. split; [assumption|]. intros c Hc. discriminate. }
  assert (Hfound : forall p, In p found <->
            In p filtered /\ forall q, search = Some q -> q <> "" -> search_selects q p).
  { intros p. unfold found. destruct search as [q|].
    - destruct (truthy (Some q)) eqn:Ht.
      + rewrite In_search. split.
        * intros [Hp Hq]. split; [assumption|]. now intros q' [= <-] _.
        * intros [Hp Hq]. split; [assumption|]. apply Hq; [reflexivity|].
          now apply truthy_Some.
      + apply truthy_Some_false in Ht. split; [|tauto].
        intros Hp. split; [assumption|]. intros q' [= <-] Hne. contradiction.
    - split; [|tauto]. intros Hp. split; [assumption|]. intros q Hq. discriminate. }
  assert (Hlen_filtered : (length filtered <= length all)%nat).
  { unfold filtered. destruct collection_id as [cid|]; [|lia].
    destruct (truthy (Some cid)); [apply List.filter_length_le|lia]. }
  assert (Hlen_found : (length found <= length filtered)%nat).
  { unfold found. destruct search as [q|]; [|lia].
    destruct (truthy (Some q)); [apply List.filter_length_le|lia]. }
  pose proof (Permutation_length (sorted_perm p_created_at found true)) as Hlen.
  fold (utils.sort_prompts_by_date found true) in Hlen.
  split; [|split].
  - intros p. unfold listed.
    rewrite <- (In_values (_prompts s) p). fold all.
    split.
    + intros Hp.
      apply (Permutation_in _ (Permutation_sym (sorted_perm p_created_at found true))) in Hp.
      apply Hfound in Hp as [Hp Hq]. apply Hfiltered in Hp as [Hp Hc]. auto.
    + intros [Hp [Hc Hq]].
      apply (Permutation_in _ (sorted_perm p_created_at found true)).
      apply Hfound. split; [|assumption]. apply Hfiltered. auto.
  - rewrite <- Hlen, <- (length_values (_prompts s)). fold all. lia.
  - intros Hc Hq. rewrite <- Hlen, <- (length_values (_prompts s)). fold all.
    unfold found, filtered. rewrite Hc, Hq.
    now destruct search, collection_id.
Qed.

Lemma list_prompts_lists_the_matches_witness :
  exists l,
    api.list_prompts (Some "") None demo_store
      = (Return (api.mkPromptList l (Z.of_nat (length l))), demo_store) /\
    ordered_by p_created_at true l /\
    (forall p, In p l <->
               (exists k, _prompts demo_store !! k = Some p) /\ listed (Some "") None p) /\
    (length l <= size (_prompts demo_store))%nat /\
    (truthy (Some "") = false -> truthy None = false ->
     length l = size (_prompts demo_store)).
Proof.
  exact (list_prompts_lists_the_matches demo_store (Some "") None).
Defined.

(** [list_collections] returns the stored collections, each once per key,
    with their number as [total]. *)
Theorem list_collections_lists_all s :
  exists l,
    api.list_collections s = (Return (api.mkCollectionList l (Z.of_nat (length l))), s) /\
    length l = size (_collections s) /\
    (forall c, In c l <-> exists k, _collections s !! k = Some c).
Proof.
  exists (map_to_list (_collections s)).*2.
  split; [reflexivity|]. split; [apply length_values|]. intros c. apply In_values.
Qed.

Lemma list_collections_lists_all_witness :
  exists l,
    api.list_collections demo_store
      = (Return (api.mkCollectionList l (Z.of_nat (length l))), demo_store) /\
    length l = size (_collections demo_store) /\
    (forall c, In c l <-> exists k, _collections demo_store !! k = Some c).
Proof.
  exact (list_collections_lists_all demo_store).
Defined.

(** ** Invariants of the reachable stores *)

Lemma writes_collections_valid r s s' :
  writes r s s' -> collections_valid s -> collections_valid s'.
Proof.
  intros Hw Hv.
  destruct Hw; try assumption; intros k x; simpl.
  - rewrite lookup_insert_Some. intros [[<- <-]|[_ Hk]]; [assumption|eauto].
  - rewrite lookup_delete_Some. intros [_ Hk]. eauto.
Qed.

Lemma serve_collections_valid rs s : collections_valid s -> collections_valid (serve rs s).
Proof.
  revert s. induction rs as [|r rs IH]; intros s Hs; simpl; [assumption|].
  apply IH. eapply writes_collections_valid; [apply handle_writes|assumption].
Qed.

Lemma title_ok_bounds t : title_ok t = true -> 1 <= len t <= 200.
Proof.
  unfold title_ok, min_length, max_length. intros [H1 H2]%andb_prop.
  apply Z.leb_le in H1, H2. lia.
Qed.

(** In every store the service can reach, a prompt that carries a non-empty
    [collection_id] names a collection that is stored and can be fetched:
    no request leaves a dangling reference behind. *)
Theorem reachable_references_resolve s k p cid :
  reachable s ->
  _prompts s !! k = Some p ->
  p_collection_id p = Some cid ->
  cid <> "" ->
  exists c, api.get_collection cid s = (Return c, s) /\ c_id c = cid.
Proof.
  intros Hs Hk Hc Hne. apply reachable_store_ok in Hs as ([_ Hids] & _ & Hr).
  destruct (Hr k p cid Hk Hc Hne) as [c Hcid]. exists c.
  unfold api.get_collection, bind, storage.get_collection. rewrite Hcid.
  split; [reflexivity|]. now apply Hids.
Qed.

Lemma reachable_references_resolve_witness :
  exists c, api.get_collection "c1" demo_store = (Return c, demo_store) /\ c_id c = "c1".
Proof.
  apply (reachable_references_resolve demo_store "p1" demo_p1 "c1").
  - exists demo_requests. reflexivity.
  - vm_compute. reflexivity.
  - reflexivity.
  - discriminate.
Defined.

(** In every store the service can reach, the stored entities satisfy the
    field constraints of their models: a prompt has a title of 1 to 200
    characters, a non-empty content and a description of at most 500; a
    collection has a name of 1 to 100 characters and a description of at
    most 500. *)
Theorem reachable_entities_are_valid s :
  reachable s ->
  (forall k p, _prompts s !! k = Some p ->
     1 <= len (p_title p) <= 200 /\
     1 <= len (p_content p) /\
     (forall d, p_description p = Some d -> len d <= 500)) /\
  (forall k c, _collections s !! k = Some c ->
     1 <= len (c_name c) <= 100 /\
     (forall d, c_description c = Some d -> len d <= 500)).
Proof.
  intros Hs. split.
  - apply reachable_store_ok in Hs as (_ & Hv & _). intros k p Hk.
    specialize (Hv k p Hk). unfold Prompt_valid, validate_PromptBase in Hv.
    apply andb_prop in Hv as [Hv Hd]. apply andb_prop in Hv as [Ht Hc].
    split; [now apply title_ok_bounds|]. split.
    + unfold content_ok, min_length in Hc. now apply Z.leb_le in Hc.
    + intros d Hpd. rewrite Hpd in Hd. simpl in Hd.
      unfold max_length in Hd. now apply Z.leb_le in Hd.
  - destruct Hs as [rs ->]. intros k c Hk.
    assert (Hv : collections_valid (serve rs storage.init)).
    { apply serve_collections_valid. intros k' c'. simpl. rewrite lookup_empty. discriminate. }
    specialize (Hv k c Hk). unfold Collection_valid, name_ok in Hv.
    apply andb_prop in Hv as [Hn Hd]. apply andb_prop in Hn as [Hn1 Hn2].
    unfold min_length, max_length in *. apply Z.leb_le in Hn1, Hn2. split; [lia|].
    intros d Hcd. rewrite Hcd in Hd. simpl in Hd. now apply Z.leb_le in Hd.
Qed.

Lemma reachable_entities_are_valid_witness :
  (forall k p, _prompts demo_store !! k = Some p ->
     1 <= len (p_title p) <= 200 /\
     1 <= len (p_content p) /\
     (forall d, p_description p = Some d -> len d <= 500)) /\
  (forall k c, _collections demo_store !! k = Some c ->
     1 <= len (c_name c) <= 100 /\
     (forall d, c_description c = Some d -> len d <= 500)).
Proof.
  apply (reachable_entities_are_valid demo_store).
  exists demo_requests. reflexivity.
Defined.

(** ** More on patches *)

(** A patch that is applied stores every non-empty value it supplies: the
    title, the content, the description and the collection id. *)
Theorem patch_applies_supplied_values s prompt_id existing d now :
  _prompts s !! prompt_id = Some existing ->
  Prompt_valid existing = true ->
  patch_within_limits d = true ->
  reference_passes s (patch_value (pp_collection_id d)) ->
  exists p',
    api.patch_prompt prompt_id d now s = (Return (Some p'), with_prompt prompt_id p' s) /\
    (forall v, pp_title d = Set_ (Some v) -> v <> "" -> p_title p' = v) /\
    (forall v, pp_content d = Set_ (Some v) -> v <> "" -> p_content p' = v) /\
    (forall v, pp_description d = Set_ (Some v) -> v <> "" -> p_description p' = Some v) /\
    (forall v, pp_collection_id d = Set_ (Some v) -> v <> "" -> p_collection_id p' = Some v).
Proof.
  intros Hk He Hd Hr. exists (merge_patch existing d now).
  split; [now apply patch_prompt_ok|].
  unfold merge_patch, merged, merged_opt. simpl.
  repeat split; intros v -> Hv; apply String.eqb_neq in Hv; now rewrite Hv.
Qed.

Lemma patch_applies_supplied_values_witness :
  exists p',
    api.patch_prompt "p2"
      (mkPromptPatch (Set_ (Some "Digest")) Unset (Set_ (Some "short")) (Set_ (Some "c1")))
      9 demo_store = (Return (Some p'), with_prompt "p2" p' demo_store) /\
    (forall v, Set_ (Some "Digest") = Set_ (Some v) -> v <> "" -> p_title p' = v) /\
    (forall v, Unset = Set_ (Some v) -> v <> "" -> p_content p' = v) /\
    (forall v, Set_ (Some "short") = Set_ (Some v) -> v <> "" -> p_description p' = Some v) /\
    (forall v, Set_ (Some "c1") = Set_ (Some v) -> v <> "" -> p_collection_id p' = Some v).
Proof.
  apply (patch_applies_supplied_values demo_store "p2" demo_p2
           (mkPromptPatch (Set_ (Some "Digest")) Unset (Set_ (Some "short"))
              (Set_ (Some "c1"))) 9).
  - vm_compute. reflexivity.
  - reflexivity.
  - reflexivity.
  - intros cid [= <-] _. exists demo_c1. vm_compute. reflexivity.
Defined.

(** A patch that supplies a non-empty value for each of the four fields is
    the full update with those values: on every store the two handlers
    give the same outcome and leave the same store, on success and on
    each error. *)
Theorem full_patch_is_full_update s prompt_id title content description collection_id now :
  title <> "" -> content <> "" -> description <> "" -> collection_id <> "" ->
  api.patch_prompt prompt_id
    (mkPromptPatch (Set_ (Some title)) (Set_ (Some content)) (Set_ (Some description))
       (Set_ (Some collection_id))) now s
  = api.update_prompt prompt_id
      (mkPromptBase title content (Some description) (Some collection_id)) now s.
Proof.
  intros Ht Hc Hd Hco.
  set (d := mkPromptPatch _ _ _ _). set (u := mkPromptBase _ _ _ _).
  destruct (_prompts s !! prompt_id) as [existing|] eqn:Hk.
  - assert (Hm : merge_patch existing d now = replace_fields existing u now).
    { unfold merge_patch, replace_fields, merged, merged_opt, d, u. simpl.
      apply String.eqb_neq in Ht, Hc, Hd, Hco. now rewrite Ht, Hc, Hd, Hco. }
    destruct (_collections s !! collection_id) as [c|] eqn:Hcid.
    + assert (Hrp : reference_passes s (Some collection_id)).
      { intros c' [= <-] _. eauto. }
      destruct (PromptBase_valid u) eqn:Hv.
      * rewrite (update_prompt_ok s prompt_id existing u now) by assumption.
        rewrite (patch_prompt_valid s prompt_id existing d now); try assumption.
        -- now rewrite Hm.
        -- now rewrite Hm.
      * rewrite (update_prompt_invalid s prompt_id existing u now) by assumption.
        rewrite (patch_prompt_invalid s prompt_id existing d now); try assumption.
        -- reflexivity.
        -- now rewrite Hm.
    + rewrite (update_prompt_bad_reference s prompt_id existing u collection_id now)
        by (assumption || reflexivity).
      now rewrite (patch_prompt_bad_reference s prompt_id existing d collection_id now)
        by (assumption || reflexivity).
  - now rewrite update_prompt_missing, patch_prompt_missing.
Qed.

Lemma full_patch_is_full_update_witness :
  api.patch_prompt "p2"
    (mkPromptPatch (Set_ (Some "Digest")) (Set_ (Some "Digest it")) (Set_ (Some "short"))
       (Set_ (Some "c1"))) 9 demo_store
  = api.update_prompt "p2"
      (mkPromptBase "Digest" "Digest it" (Some "short") (Some "c1")) 9 demo_store.
Proof.
  apply (full_patch_is_full_update demo_store "p2" "Digest" "Digest it" "short" "c1" 9);
    discriminate.
Defined.

(** ** The storage class on its own *)

(** A prompt put in the store is read back under its id.  An update is
    filed under the key it is given, whatever the [id] of the new value,
    and never creates an entry: on a key that is not stored it returns
    [None] and changes nothing.  A delete tells whether the key was
    stored, and after it the key is not; a second delete returns [False]. *)
Theorem storage_prompt_round_trips s (p q : Prompt) k :
  let s1 := snd (storage.create_prompt p s) in
  let s2 := snd (storage.update_prompt (p_id p) q s1) in
  let s3 := snd (storage.delete_prompt (p_id p) s2) in
  fst (storage.get_prompt (p_id p) s1) = Return (Some p) /\
  fst (storage.update_prompt (p_id p) q s1) = Return (Some q) /\
  fst (storage.get_prompt (p_id p) s2) = Return (Some q) /\
  fst (storage.delete_prompt (p_id p) s2) = Return true /\
  fst (storage.get_prompt (p_id p) s3) = Return None /\
  storage.delete_prompt (p_id p) s3 = (Return false, s3) /\
  (_prompts s !! k = None -> storage.update_prompt k q s = (Return None, s)).
Proof.
  intros s1 s2 s3.
  assert (H1 : _prompts s1 !! p_id p = Some p) by apply lookup_insert_eq.
  assert (H2 : s2 = mkStorage (<[p_id p := q]> (_prompts s1)) (_collections s1)).
  { unfold s2, storage.update_prompt. now rewrite H1. }
  assert (H2' : _prompts s2 !! p_id p = Some q) by (rewrite H2; apply lookup_insert_eq).
  assert (H3 : s3 = mkStorage (delete (p_id p) (_prompts s2)) (_collections s2)).
  { unfold s3, storage.delete_prompt. now rewrite H2'. }
  assert (H3' : _prompts s3 !! p_id p = None) by (rewrite H3; apply lookup_delete_eq).
  unfold storage.get_prompt. cbn [fst].
  split; [now rewrite H1|].
  split; [unfold storage.update_prompt; now rewrite H1|].
  split; [now rewrite H2'|].
  split; [unfold storage.delete_prompt; now rewrite H2'|].
  split; [now rewrite H3'|].
  split; [unfold storage.delete_prompt; now rewrite H3'|].
  intros Hk. unfold storage.update_prompt. now rewrite Hk.
Qed.

Lemma storage_prompt_round_trips_witness :
  storage.update_prompt "p9" demo_p1 demo_store = (Return None, demo_store).
Proof.
  apply (storage_prompt_round_trips demo_store demo_p1 demo_p1 "p9").
  vm_compute. reflexivity.
Defined.

(** * Further properties of the query functions *)

Section more_sorting.
Context {A : Type} (key : A -> Z).

Lemma insert_in_front x l :
  (forall y, In y l -> key x <= key y) -> utils.insert_by_key key x l = x :: l.
Proof.
  destruct l as [|y l]; [reflexivity|]. intros Hx. simpl.
  assert (key x <= key y) as Hy by (apply Hx; now left).
  apply Z.leb_le in Hy. now rewrite Hy.
Qed.

Lemma filter_insert f x l :
  ordered_by key false l ->
  List.filter f (utils.insert_by_key key x l) =
  if f x then utils.insert_by_key key x (List.filter f l) else List.filter f l.
Proof.
  induction l as [|y l IH]; intros Hl.
  - simpl. now destruct (f x).
  - destruct Hl as [Hy Hl]. cbn [utils.insert_by_key].
    destruct (key x <=? key y) eqn:Hxy.
    + apply Z.leb_le in Hxy. cbn [List.filter].
      destruct (f x) eqn:Hfx; [|reflexivity].
      symmetry. apply insert_in_front. intros z Hz.
      assert (In z (y :: l)) as [<-|Hz'].
      { destruct (f y).
        - destruct Hz as [<-|Hz]; [now left|]. right. now apply filter_In in Hz.
        - right. now apply filter_In in Hz. }
      * assumption.
      * specialize (Hy z Hz'). lia.
    + cbn [List.filter]. rewrite IH by assumption.
      destruct (f y) eqn:Hfy, (f x) eqn:Hfx; try reflexivity.
      cbn [utils.insert_by_key]. now rewrite Hxy.
Qed.

Lemma filter_stable_sort f l :
  List.filter f (utils.stable_sort key l) = utils.stable_sort key (List.filter f l).
Proof.
  induction l as [|x l IH]; [reflexivity|]. simpl.
  rewrite filter_insert by apply stable_sort_ordered.
  destruct (f x); simpl; now rewrite IH.
Qed.

Lemma filter_sorted f l reverse :
  List.filter f (utils.sorted key l reverse) = utils.sorted key (List.filter f l) reverse.
Proof.
  unfold utils.sorted. destruct reverse; [|apply filter_stable_sort].
  now rewrite filter_rev, filter_stable_sort, filter_rev.
Qed.

Lemma ordered_snoc_any d l x :
  ordered_by key d l ->
  (forall y, In y l -> if d then key x <= key y else key y <= key x) ->
  ordered_by key d (l ++ [x]).
Proof.
  induction l as [|a l IH]; simpl.
  - intros _ _. split; [intros z []|exact I].
  - intros [Ha Hl] Hx. split.
    + intros z [Hz|[<-|[]]]%in_app_or; [now apply Ha|]. apply Hx. now left.
    + apply IH; [assumption|]. intros y Hy. apply Hx. now right.
Qed.

Lemma rev_ordered_any d l : ordered_by key d l -> ordered_by key (negb d) (rev l).
Proof.
  induction l as [|a l IH]; simpl; [trivial|].
  intros [Ha Hl]. apply ordered_snoc_any; [auto|].
  intros y Hy. apply in_rev in Hy. specialize (Ha y Hy). now destruct d.
Qed.

Lemma stable_sort_ordered_id l : ordered_by key false l -> utils.stable_sort key l = l.
Proof.
  induction l as [|x l IH]; [reflexivity|]. intros [Hx Hl]. simpl.
  rewrite IH by assumption. now apply insert_in_front.
Qed.

Lemma sorted_ordered_id l reverse :
  ordered_by key reverse l -> utils.sorted key l reverse = l.
Proof.
  unfold utils.sorted. destruct reverse; intros Hl.
  - apply rev_ordered_any in Hl. simpl in Hl.
    rewrite stable_sort_ordered_id by assumption. apply rev_involutive.
  - now apply stable_sort_ordered_id.
Qed.
End more_sorting.

(** The three steps of a listing can be taken in any order: filtering by
    collection and searching commute with sorting by date, in either
    direction, and with each other. *)
Theorem listing_steps_commute (prompts : list Prompt) collection_id query descending :
  utils.sort_prompts_by_date (utils.filter_prompts_by_collection prompts collection_id)
    descending
  = utils.filter_prompts_by_collection (utils.sort_prompts_by_date prompts descending)
      collection_id /\
  utils.sort_prompts_by_date (utils.search_prompts prompts query) descending
  = utils.search_prompts (utils.sort_prompts_by_date prompts descending) query /\
  utils.search_prompts (utils.filter_prompts_by_collection prompts collection_id) query
  = utils.filter_prompts_by_collection (utils.search_prompts prompts query) collection_id.
Proof.
  unfold utils.sort_prompts_by_date, utils.filter_prompts_by_collection, utils.search_prompts.
  split; [now rewrite filter_sorted|]. split; [now rewrite filter_sorted|].
  induction prompts as [|p ps IH]; [reflexivity|]. simpl.
  destruct (bool_decide (p_collection_id p = Some collection_id)) eqn:Hc,
           (utils.search_keeps (utils.lower query) p) eqn:Hq; simpl;
    rewrite ?Hc, ?Hq, IH; reflexivity.
Qed.

(** Sorting by date keeps the number of prompts, leaves a list that is
    already in the requested order as it is, and so does nothing when
    applied a second time. *)
Theorem sort_by_date_is_idempotent (prompts : list Prompt) descending :
  length (utils.sort_prompts_by_date prompts descending) = length prompts /\
  (ordered_by p_created_at descending prompts ->
   utils.sort_prompts_by_date prompts descending = prompts) /\
  utils.sort_prompts_by_date (utils.sort_prompts_by_date prompts descending) descending
  = utils.sort_prompts_by_date prompts descending.
Proof.
  unfold utils.sort_prompts_by_date. split; [|split].
  - symmetry. apply Permutation_length, sorted_perm.
  - apply sorted_ordered_id.
  - apply sorted_ordered_id, sorted_ordered.
Qed.

Lemma sort_by_date_is_idempotent_witness :
  length (utils.sort_prompts_by_date [demo_p2; demo_p1] true) = length [demo_p2; demo_p1] /\
  (ordered_by p_created_at true [demo_p2; demo_p1] ->
   utils.sort_prompts_by_date [demo_p2; demo_p1] true = [demo_p2; demo_p1]) /\
  utils.sort_prompts_by_date (utils.sort_prompts_by_date [demo_p2; demo_p1] true) true
  = utils.sort_prompts_by_date [demo_p2; demo_p1] true.
Proof.
  exact (sort_by_date_is_idempotent [demo_p2; demo_p1] true).
Defined.

(** ** Strings *)

Lemma append_cons (x : ascii) (a b : string) : String x a +:+ b = String x (a +:+ b).
Proof. reflexivity. Qed.

Lemma append_assoc (a b c : string) : (a +:+ b) +:+ c = a +:+ (b +:+ c).
Proof.
  induction a as [|x a IH]; [reflexivity|]. rewrite !append_cons. now rewrite IH.
Qed.

Lemma append_nil_r (a : string) : a +:+ "" = a.
Proof.
  induction a as [|x a IH]; [reflexivity|]. rewrite append_cons. now rewrite IH.
Qed.

Lemma length_append (a b : string) :
  String.length (a +:+ b) = (String.length a + String.length b)%nat.
Proof.
  induction a as [|x a IH]; [reflexivity|]. rewrite append_cons.
  cbn [String.length]. now rewrite IH.
Qed.

Lemma lower_append a b : utils.lower (a +:+ b) = utils.lower a +:+ utils.lower b.
Proof.
  induction a as [|x a IH]; [reflexivity|]. rewrite append_cons.
  cbn [utils.lower]. now rewrite IH, append_cons.
Qed.

Lemma lower_char_idempotent c : utils.lower_char (utils.lower_char c) = utils.lower_char c.
Proof.
  destruct c as [[] [] [] [] [] [] [] []]; reflexivity.
Qed.

Lemma lower_idempotent s : utils.lower (utils.lower s) = utils.lower s.
Proof.
  induction s as [|c s IH]; simpl; [reflexivity|].
  now rewrite lower_char_idempotent, IH.
Qed.

Lemma length_lower s : String.length (utils.lower s) = String.length s.
Proof. induction s as [|c s IH]; simpl; [reflexivity|now rewrite IH]. Qed.

Lemma is_substring_trans a b c : is_substring a b -> is_substring b c -> is_substring a c.
Proof.
  intros (p1 & q1 & ->) (p2 & q2 & ->). exists (p2 +:+ p1), (q1 +:+ q2).
  now rewrite !append_assoc.
Qed.

Lemma is_substring_lower a b :
  is_substring a b -> is_substring (utils.lower a) (utils.lower b).
Proof.
  intros (p & q & ->). exists (utils.lower p), (utils.lower q).
  now rewrite !lower_append.
Qed.

Lemma search_selects_narrower q1 q2 p :
  is_substring q1 q2 -> search_selects q2 p -> search_selects q1 p.
Proof.
  rewrite !search_selects_lower. intros Hq [Ht|(d & Hd & Hs)].
  - left. eapply is_substring_trans; [apply is_substring_lower|]; eassumption.
  - right. exists d. split; [assumption|].
    eapply is_substring_trans; [apply is_substring_lower|]; eassumption.
Qed.

(** Over the alphabet of the model, searching for the lowercased form of a
    query finds what the query finds, and a longer query narrows the
    result: when [q1] occurs in [q2], every prompt found for [q2] is found
    for [q1], and searching for [q2] among the prompts found for [q1] gives
    the prompts found for [q2]. *)
Theorem search_refines (prompts : list Prompt) q1 q1' q2 :
  lowercased q1 q1' ->
  is_substring q1 q2 ->
  utils.search_prompts prompts q1' = utils.search_prompts prompts q1 /\
  (forall p, In p (utils.search_prompts prompts q2) ->
             In p (utils.search_prompts prompts q1)) /\
  utils.search_prompts (utils.search_prompts prompts q1) q2
  = utils.search_prompts prompts q2.
Proof.
  intros Hlow Hq. apply lowercased_unique in Hlow. subst q1'. split; [|split].
  - unfold utils.search_prompts. now rewrite lower_idempotent.
  - intros p. rewrite !In_search. intros [Hp Hs]. split; [assumption|].
    eapply search_selects_narrower; eassumption.
  - unfold utils.search_prompts.
    induction prompts as [|p ps IH]; [reflexivity|]. simpl.
    destruct (utils.search_keeps (utils.lower q1) p) eqn:H1; simpl.
    + now rewrite IH.
    + rewrite IH.
      destruct (utils.search_keeps (utils.lower q2) p) eqn:H2; [|reflexivity].
      apply search_keeps_spec in H2.
      apply (search_selects_narrower q1 q2 p Hq), search_keeps_spec in H2. congruence.
Qed.

Lemma search_refines_witness :
  utils.search_prompts [demo_p1; demo_p2] "ell"
    = utils.search_prompts [demo_p1; demo_p2] "ELL" /\
  (forall p, In p (utils.search_prompts [demo_p1; demo_p2] "hELLo") ->
             In p (utils.search_prompts [demo_p1; demo_p2] "ELL")) /\
  utils.search_prompts (utils.search_prompts [demo_p1; demo_p2] "ELL") "hELLo"
  = utils.search_prompts [demo_p1; demo_p2] "hELLo".
Proof.
  apply (search_refines [demo_p1; demo_p2] "ELL" "ell" "hELLo").
  - repeat (apply lowercased_capital; [vm_compute; left; split; discriminate|]).
    constructor.
  - exists "h", "o". reflexivity.
Defined.

(** ** Stripping and the content check *)

Lemma lstrip_all_space a : all_chars utils.isspace a = true -> utils.lstrip a = "".
Proof.
  induction a as [|c a IH]; [reflexivity|]. cbn [all_chars utils.lstrip].
  intros [Hc Ha]%andb_prop. rewrite Hc. now apply IH.
Qed.

Lemma lstrip_skip a s : all_chars utils.isspace a = true -> utils.lstrip (a +:+ s) = utils.lstrip s.
Proof.
  induction a as [|c a IH]; [reflexivity|]. cbn [all_chars].
  intros [Hc Ha]%andb_prop. rewrite append_cons. cbn [utils.lstrip]. rewrite Hc. now apply IH.
Qed.

Lemma lstrip_split s :
  exists a, all_chars utils.isspace a = true /\ s = a +:+ utils.lstrip s.
Proof.
  induction s as [|c s (a & Ha & Hs)]; [now exists ""|].
  cbn [utils.lstrip]. destruct (utils.isspace c) eqn:Hc.
  - exists (String c a). cbn [all_chars]. rewrite Hc, Ha, append_cons. now rewrite <- Hs.
  - now exists "".
Qed.

Lemma lstrip_head s c r : utils.lstrip s = String c r -> utils.isspace c = false.
Proof.
  induction s as [|x s IH]; [discriminate|]. cbn [utils.lstrip].
  destruct (utils.isspace x) eqn:Hx; [assumption|]. now intros [= <- _].
Qed.

Lemma rstrip_cons c s :
  utils.rstrip (String c s) =
  match utils.rstrip s with
  | EmptyString => if utils.isspace c then EmptyString else String c EmptyString
  | String c' r => String c (String c' r)
  end.
Proof. reflexivity. Qed.

Lemma rstrip_all_space b : all_chars utils.isspace b = true -> utils.rstrip b = "".
Proof.
  induction b as [|c b IH]; [reflexivity|]. cbn [all_chars].
  intros [Hc Hb]%andb_prop. now rewrite rstrip_cons, IH, Hc.
Qed.

Lemma rstrip_skip s b : all_chars utils.isspace b = true -> utils.rstrip (s +:+ b) = utils.rstrip s.
Proof.
  intros Hb. induction s as [|c s IH]; [now apply rstrip_all_space|].
  now rewrite append_cons, !rstrip_cons, IH.
Qed.

Lemma rstrip_split s :
  exists b, all_chars utils.isspace b = true /\ s = utils.rstrip s +:+ b.
Proof.
  induction s as [|c s (b & Hb & Hs)]; [now exists ""|].
  rewrite rstrip_cons. destruct (utils.rstrip s) as [|c' r] eqn:Hr.
  - destruct (utils.isspace c) eqn:Hc.
    + exists (String c b). cbn [all_chars]. rewrite Hc, Hb. split; [reflexivity|].
      now rewrite Hs.
    + exists b. split; [assumption|]. now rewrite Hs.
  - exists b. split; [assumption|]. rewrite !append_cons. now rewrite Hs at 1.
Qed.

Lemma rstrip_last s r c : utils.rstrip s = r +:+ String c "" -> utils.isspace c = false.
Proof.
  revert r. induction s as [|x s IH]; intros r.
  - destruct r; discriminate.
  - rewrite rstrip_cons. destruct (utils.rstrip s) as [|c' r'] eqn:Hr.
    + destruct (utils.isspace x) eqn:Hx; [destruct r; discriminate|].
      destruct r as [|y r]; [now intros [= <-]|].
      rewrite append_cons. intros [= _ H]. destruct r; discriminate.
    + destruct r as [|y r]; [discriminate|].
      rewrite append_cons. intros [= _ H]. now apply (IH r).
Qed.

Lemma rstrip_idempotent s : utils.rstrip (utils.rstrip s) = utils.rstrip s.
Proof.
  induction s as [|c s IH]; [reflexivity|].
  rewrite rstrip_cons. destruct (utils.rstrip s) as [|c' r] eqn:Hr.
  - destruct (utils.isspace c) eqn:Hc; [reflexivity|]. rewrite rstrip_cons. simpl. now rewrite Hc.
  - rewrite rstrip_cons, IH. reflexivity.
Qed.

Lemma rstrip_head c r :
  utils.isspace c = false -> exists r', utils.rstrip (String c r) = String c r'.
Proof.
  intros Hc. rewrite rstrip_cons, Hc. destruct (utils.rstrip r); eauto.
Qed.

Lemma lstrip_fixed s :
  (forall c r, s = String c r -> utils.isspace c = false) -> utils.lstrip s = s.
Proof.
  destruct s as [|c r]; [reflexivity|]. intros H. cbn [utils.lstrip].
  now rewrite (H c r eq_refl).
Qed.

Lemma strip_head s c r : utils.strip s = String c r -> utils.isspace c = false.
Proof.
  unfold utils.strip. destruct (utils.lstrip s) as [|x t] eqn:Ht; [discriminate|].
  pose proof (lstrip_head s x t Ht) as Hx.
  destruct (rstrip_head x t Hx) as [r' ->]. now intros [= <- _].
Qed.

Lemma strip_pad a s b :
  all_chars utils.isspace a = true -> all_chars utils.isspace b = true ->
  utils.strip (a +:+ s +:+ b) = utils.strip s.
Proof.
  intros Ha Hb. unfold utils.strip. rewrite lstrip_skip by assumption.
  destruct (lstrip_split s) as (a' & Ha' & Hs).
  rewrite Hs at 1. rewrite append_assoc, lstrip_skip by assumption.
  destruct (utils.lstrip s) as [|c r] eqn:Ht.
  - simpl. now rewrite lstrip_all_space.
  - rewrite append_cons. cbn [utils.lstrip].
    rewrite (lstrip_head s c r Ht). rewrite <- append_cons. now apply rstrip_skip.
Qed.

Lemma strip_length s : len (utils.strip s) <= len s.
Proof.
  unfold utils.strip, len.
  destruct (lstrip_split s) as (a & _ & Hs).
  destruct (rstrip_split (utils.lstrip s)) as (b & _ & Ht).
  rewrite Hs at 2. rewrite Ht at 2. rewrite !length_append. lia.
Qed.

Lemma validate_prompt_content_unfold content :
  utils.validate_prompt_content content = (10 <=? len (utils.strip content)).
Proof.
  unfold utils.validate_prompt_content.
  destruct (String.eqb_spec content "") as [->|_]; [reflexivity|].
  destruct (String.eqb_spec (utils.strip content) "") as [->|_]; reflexivity.
Qed.

(** [strip] returns a substring of its argument that neither starts nor
    ends with a whitespace character, and stripping twice is stripping
    once. *)
Theorem strip_is_clean (s : string) :
  is_substring (utils.strip s) s /\
  utils.strip (utils.strip s) = utils.strip s /\
  (forall c r, utils.strip s = String c r -> utils.isspace c = false) /\
  (forall r c, utils.strip s = r +:+ String c "" -> utils.isspace c = false).
Proof.
  split; [|split; [|split]].
  - unfold utils.strip.
    destruct (lstrip_split s) as (a & _ & Hs).
    destruct (rstrip_split (utils.lstrip s)) as (b & _ & Ht).
    exists a, b. rewrite <- Ht. exact Hs.
  - unfold utils.strip at 1.
    rewrite lstrip_fixed by (intros c r; apply strip_head).
    unfold utils.strip. apply rstrip_idempotent.
  - apply strip_head.
  - unfold utils.strip. intros r c. apply rstrip_last.
Qed.

Lemma strip_is_clean_witness :
  utils.isspace "h" = false /\ utils.isspace "i" = false.
Proof.
  destruct (strip_is_clean "  hi  ") as (_ & _ & Hhead & Hlast).
  split.
  - apply (Hhead "h"%char "i"). reflexivity.
  - apply (Hlast "h" "i"%char). reflexivity.
Defined.

(** Whitespace around a string changes neither what [strip] returns nor
    what [validate_prompt_content] answers. *)
Theorem padding_is_ignored (a s b : string) :
  all_chars utils.isspace a = true ->
  all_chars utils.isspace b = true ->
  utils.strip (a +:+ s +:+ b) = utils.strip s /\
  utils.validate_prompt_content (a +:+ s +:+ b) = utils.validate_prompt_content s.
Proof.
  intros Ha Hb. split; [now apply strip_pad|].
  now rewrite !validate_prompt_content_unfold, strip_pad.
Qed.

Lemma padding_is_ignored_witness :
  utils.strip ("  " +:+ "Say hello" +:+ " ") = utils.strip "Say hello" /\
  utils.validate_prompt_content ("  " +:+ "Say hello" +:+ " ")
    = utils.validate_prompt_content "Say hello".
Proof.
  apply (padding_is_ignored "  " "Say hello" " "); reflexivity.
Defined.

(** [validate_prompt_content] accepts exactly the contents whose stripped
    form has at least ten characters (the two early returns add nothing);
    an accepted content has at least ten characters, and a content made of
    whitespace only, the empty one included, is rejected. *)
Theorem validate_prompt_content_spec (content : string) :
  (utils.validate_prompt_content content = true <-> 10 <= len (utils.strip content)) /\
  (utils.validate_prompt_content content = true -> 10 <= len content) /\
  (all_chars utils.isspace content = true -> utils.validate_prompt_content content = false).
Proof.
  rewrite validate_prompt_content_unfold. split; [apply Z.leb_le|]. split.
  - intros H%Z.leb_le. pose proof (strip_length content). lia.
  - intros Hc. unfold utils.strip. now rewrite lstrip_all_space.
Qed.

Lemma validate_prompt_content_spec_witness :
  10 <= len "Summarise the text" /\ utils.validate_prompt_content "  " = false.
Proof.
  destruct (validate_prompt_content_spec "Summarise the text") as (_ & Hlen & _).
  destruct (validate_prompt_content_spec "  ") as (_ & _ & Hspace).
  split; [apply Hlen|apply Hspace]; reflexivity.
Defined.

(** ** Template variables *)

Lemma span_word_spec s w r :
  utils.span_word s = (w, r) -> s = w +:+ r /\ all_chars utils.isword w = true.
Proof.
  revert w r. induction s as [|c s IH]; intros w r; cbn [utils.span_word].
  - now intros [= <- <-].
  - destruct (utils.isword c) eqn:Hc.
    + destruct (utils.span_word s) as [w' r'] eqn:Hs. intros [= <- <-].
      destruct (IH w' r' eq_refl) as [-> Hw]. cbn [all_chars]. now rewrite Hc, Hw.
    + now intros [= <- <-].
Qed.

Lemma span_word_app w r :
  all_chars utils.isword w = true ->
  (forall c r', r = String c r' -> utils.isword c = false) ->
  utils.span_word (w +:+ r) = (w, r).
Proof.
  intros Hw Hr. induction w as [|c w IH].
  - destruct r as [|c r']; [reflexivity|]. simpl. now rewrite (Hr c r' eq_refl).
  - cbn [all_chars] in Hw. apply andb_prop in Hw as [Hc Hw].
    rewrite append_cons. cbn [utils.span_word]. now rewrite Hc, IH.
Qed.

Lemma match_variable_single c : utils.match_variable (String c "") = None.
Proof. destruct c as [[] [] [] [] [] [] [] []]; reflexivity. Qed.

Lemma match_variable_unfold c1 c2 s :
  utils.match_variable (String c1 (String c2 s)) =
  if Ascii.eqb c1 "{" && Ascii.eqb c2 "{"
  then let (w, r) := utils.span_word s in
       if negb (String.eqb w "") && utils.startswith "}}" r then Some w else None
  else None.
Proof.
  destruct c1 as [[] [] [] [] [] [] [] []]; try reflexivity.
  destruct c2 as [[] [] [] [] [] [] [] []]; reflexivity.
Qed.

Lemma match_variable_not_open c s :
  is_open_brace c = false -> utils.match_variable (String c s) = None.
Proof.
  intros Hc. destruct s as [|c2 s]; [apply match_variable_single|].
  rewrite match_variable_unfold. unfold is_open_brace in Hc. now rewrite Hc.
Qed.

Lemma placeholder_append w rest :
  placeholder w +:+ rest = String "{" (String "{" (w +:+ "}}" +:+ rest)).
Proof.
  unfold placeholder.
  change ("{{" +:+ w +:+ "}}") with (String "{" (String "{" (w +:+ "}}"))).
  now rewrite !append_cons, append_assoc.
Qed.

Lemma match_variable_spec s w :
  utils.match_variable s = Some w -> is_name w /\ exists rest, s = placeholder w +:+ rest.
Proof.
  destruct s as [|c1 [|c2 s]];
    [simpl; discriminate|rewrite match_variable_single; discriminate|].
  rewrite match_variable_unfold.
  destruct (Ascii.eqb_spec c1 "{") as [->|]; [|simpl; intros [=]].
  destruct (Ascii.eqb_spec c2 "{") as [->|]; [|simpl; intros [=]]. cbn [andb].
  destruct (utils.span_word s) as [w' r] eqn:Hs.
  destruct (negb (String.eqb w' "") && utils.startswith "}}" r) eqn:Hc; [|intros [=]].
  intros [= <-]. apply andb_prop in Hc as [Hne Hr].
  apply negb_true_iff, String.eqb_neq in Hne. apply startswith_spec in Hr as [rest ->].
  apply span_word_spec in Hs as [-> Hw]. split; [now split|].
  exists rest. now rewrite placeholder_append.
Qed.

Lemma match_variable_placeholder w post :
  is_name w -> utils.match_variable (placeholder w +:+ post) = Some w.
Proof.
  intros [Hne Hw]. rewrite placeholder_append, match_variable_unfold.
  rewrite !Ascii.eqb_refl. cbn [andb].
  rewrite span_word_app; [|assumption|].
  - apply String.eqb_neq in Hne. rewrite Hne. reflexivity.
  - intros c r'. rewrite append_cons. now intros [= <- _].
Qed.

Lemma findall_skip a s :
  utils.findall_variables (String.length a) (a +:+ s) = utils.findall_variables 0 s.
Proof.
  induction a as [|c a IH]; [reflexivity|]. rewrite append_cons. exact IH.
Qed.

Lemma findall_no_brace pre s :
  all_chars (fun c => negb (is_open_brace c)) pre = true ->
  utils.findall_variables 0 (pre +:+ s) = utils.findall_variables 0 s.
Proof.
  induction pre as [|c pre IH]; [reflexivity|]. cbn [all_chars].
  intros [Hc Hpre]%andb_prop. apply negb_true_iff in Hc.
  rewrite append_cons. cbn [utils.findall_variables].
  rewrite match_variable_not_open by assumption. now apply IH.
Qed.

Lemma findall_placeholder w post :
  is_name w ->
  utils.findall_variables 0 (placeholder w +:+ post) = w :: utils.findall_variables 0 post.
Proof.
  intros Hw. pose proof (match_variable_placeholder w post Hw) as Hm.
  rewrite placeholder_append in *.
  remember (String "{" (w +:+ "}}" +:+ post)) as tail eqn:Htail.
  cbn [utils.findall_variables]. rewrite Hm. f_equal. subst tail.
  rewrite <- append_assoc, <- append_cons.
  replace (String.length w + 3)%nat with (String.length (String "{" (w +:+ "}}"))).
  - apply findall_skip.
  - cbn [String.length]. rewrite length_append. simpl. lia.
Qed.

Lemma findall_In skip s w :
  In w (utils.findall_variables skip s) -> is_name w /\ is_substring (placeholder w) s.
Proof.
  revert skip. induction s as [|c s IH]; intros skip; [intros []|].
  assert (Hlater : forall k, In w (utils.findall_variables k s) ->
                             is_name w /\ is_substring (placeholder w) (String c s)).
  { intros k Hk. destruct (IH k Hk) as [Hw (pre & post & ->)]. split; [assumption|].
    exists (String c pre), post. now rewrite append_cons. }
  cbn [utils.findall_variables]. destruct skip as [|k]; [|apply Hlater].
  destruct (utils.match_variable (String c s)) as [w'|] eqn:Hm; [|apply Hlater].
  intros [<-|Hw]; [|eapply Hlater; eassumption].
  apply match_variable_spec in Hm as [Hw [rest Hs]]. split; [assumption|].
  exists "", rest. exact Hs.
Qed.

Lemma findall_count skip s :
  (5 * length (utils.findall_variables skip s) <= String.length s - skip)%nat.
Proof.
  revert skip. induction s as [|c s IH]; intros skip; [simpl; lia|].
  cbn [utils.findall_variables String.length]. destruct skip as [|k].
  - destruct (utils.match_variable (String c s)) as [w|] eqn:Hm.
    + apply match_variable_spec in Hm as [[Hne _] [rest Hs]].
      rewrite placeholder_append in Hs. injection Hs as _ Hs.
      assert (String.length s = String.length w + 3 + String.length rest)%nat as Hlen.
      { rewrite Hs. cbn [String.length]. rewrite !length_append. simpl. lia. }
      assert (1 <= String.length w)%nat by (destruct w; [congruence|simpl; lia]).
      specialize (IH (String.length w + 3)%nat). cbn [length]. lia.
    + specialize (IH 0%nat). lia.
  - specialize (IH k). lia.
Qed.

(** Every name [extract_variables] returns is a non-empty run of word
    characters that occurs in the content between double braces. *)
Theorem extracted_names_occur (content w : string) :
  In w (utils.extract_variables content) ->
  w <> "" /\
  all_chars utils.isword w = true /\
  is_substring ("{{" +:+ w +:+ "}}") content.
Proof.
  intros Hw. destruct (findall_In 0 content w Hw) as [[Hne Hword] Hsub]. auto.
Qed.

Lemma extracted_names_occur_witness :
  "name" <> "" /\
  all_chars utils.isword "name" = true /\
  is_substring ("{{" +:+ "name" +:+ "}}") "Hello {{name}}, {{ no }}".
Proof.
  apply (extracted_names_occur "Hello {{name}}, {{ no }}" "name").
  vm_compute. left. reflexivity.
Defined.

(** The matches do not overlap and each takes at least five characters: a
    content of [n] characters yields at most [n / 5] names. *)
Theorem extract_variables_count (content : string) :
  (5 * length (utils.extract_variables content) <= String.length content)%nat.
Proof.
  pose proof (findall_count 0 content). unfold utils.extract_variables. lia.
Qed.

(** Text without an opening brace yields no name, and is passed over in
    front of a placeholder: the name of the placeholder comes first,
    followed by the names found after it. *)
Theorem extract_variables_reads_placeholder (pre w post : string) :
  all_chars (fun c => negb (is_open_brace c)) pre = true ->
  w <> "" ->
  all_chars utils.isword w = true ->
  utils.extract_variables pre = [] /\
  utils.extract_variables (pre +:+ "{{" +:+ w +:+ "}}" +:+ post)
    = w :: utils.extract_variables post.
Proof.
  intros Hpre Hne Hw. unfold utils.extract_variables. split.
  - rewrite <- (append_nil_r pre). now rewrite findall_no_brace.
  - rewrite findall_no_brace by assumption.
    rewrite <- (findall_placeholder w post) by (now split).
    now rewrite placeholder_append.
Qed.

Lemma extract_variables_reads_placeholder_witness :
  utils.extract_variables "Dear " = [] /\
  utils.extract_variables ("Dear " +:+ "{{" +:+ "name" +:+ "}}" +:+ ", hi {{you}}")
    = "name" :: utils.extract_variables ", hi {{you}}".
Proof.
  apply (extract_variables_reads_placeholder "Dear " "name" ", hi {{you}}").
  - reflexivity.
  - discriminate.
  - reflexivity.
Defined.

(** Round trip: from the placeholders of a list of names written one after
    the other, [extract_variables] reads the list back. *)
Theorem extract_variables_of_placeholders (names : list string) :
  Forall is_name names ->
  utils.extract_variables (placeholders names) = names.
Proof.
  unfold utils.extract_variables. induction 1 as [|w ws Hw Hws IH]; [reflexivity|].
  cbn [placeholders]. rewrite findall_placeholder by assumption. now rewrite IH.
Qed.

Lemma extract_variables_of_placeholders_witness :
  utils.extract_variables (placeholders ["name"; "age_1"]) = ["name"; "age_1"].
Proof.
  apply (extract_variables_of_placeholders ["name"; "age_1"]).
  repeat constructor; discriminate.
Defined.

(** * Further properties: filtering, clearing, collections that are not stored *)

(** [filter_prompts_by_collection] returns exactly the prompts whose
    [collection_id] is the given id, in their input order; a prompt without
    collection is never returned, and filtering twice is filtering once. *)
Theorem filter_by_collection_selects (prompts : list Prompt) collection_id :
  selected (fun p => p_collection_id p = Some collection_id) prompts
    (utils.filter_prompts_by_collection prompts collection_id) /\
  (forall p, In p (utils.filter_prompts_by_collection prompts collection_id) ->
             p_collection_id p <> None) /\
  utils.filter_prompts_by_collection
    (utils.filter_prompts_by_collection prompts collection_id) collection_id
  = utils.filter_prompts_by_collection prompts collection_id.
Proof.
  split; [|split].
  - apply filter_selected. intros p. apply bool_decide_eq_true.
  - intros p [_ Hp]%In_filter_by_collection. congruence.
  - unfold utils.filter_prompts_by_collection.
    induction prompts as [|p ps IH]; [reflexivity|]. simpl.
    destruct (bool_decide (p_collection_id p = Some collection_id)) eqn:Hp; [|assumption].
    simpl. now rewrite Hp, IH.
Qed.

Lemma filter_by_collection_selects_witness :
  p_collection_id demo_p1 <> None.
Proof.
  destruct (filter_by_collection_selects [demo_p1; demo_p2] "c1") as (_ & Hsome & _).
  apply (Hsome demo_p1). vm_compute. left. reflexivity.
Defined.

(** After [clear] the store is the initial one: both listings are empty
    with a total of zero, and every prompt and collection is gone. *)
Theorem clear_resets_the_store s collection_id search prompt_id cid :
  let s0 := snd (storage.clear s) in
  s0 = storage.init /\
  api.list_prompts collection_id search s0 = (Return (api.mkPromptList [] 0), s0) /\
  api.list_collections s0 = (Return (api.mkCollectionList [] 0), s0) /\
  api.get_prompt prompt_id s0 = (Raise (HTTPException 404 "Prompt not found"), s0) /\
  api.get_collection cid s0 = (Raise (HTTPException 404 "Collection not found"), s0).
Proof.
  intros s0. change s0 with storage.init.
  split; [reflexivity|].
  split.
  - unfold api.list_prompts, bind, storage.get_all_prompts, storage.init, ret.
    cbn [_prompts]. rewrite map_to_list_empty. cbn [fmap list_fmap].
    destruct collection_id as [c|], search as [q|]; simpl;
      repeat match goal with |- context [negb ?b] => destruct b; simpl end; reflexivity.
  - split.
    + unfold api.list_collections, bind, storage.get_all_collections, storage.init, ret.
      cbn [_collections]. now rewrite map_to_list_empty.
    + split.
      * apply get_prompt_missing, lookup_empty.
      * unfold api.get_collection, bind, storage.get_collection, storage.init.
        cbn [_collections]. now rewrite lookup_empty.
Qed.

(** In a store the service can reach, a non-empty id that names no stored
    collection is carried by no prompt: the listing filtered by it is empty,
    and deleting the collection raises the 404 error and leaves the store
    as it was. *)
Theorem unknown_collection_has_no_prompts s cid search :
  reachable s ->
  cid <> "" ->
  _collections s !! cid = None ->
  api.list_prompts (Some cid) search s = (Return (api.mkPromptList [] 0), s) /\
  api.get_collection cid s = (Raise (HTTPException 404 "Collection not found"), s) /\
  api.delete_collection cid s = (Raise (HTTPException 404 "Collection not found"), s).
Proof.
  intros Hs Hne Hc. pose proof (reachable_store_ok s Hs) as (_ & _ & Hr).
  pose proof (members_of_missing s cid Hr Hne Hc) as Hm.
  split; [|split].
  - unfold api.list_prompts, bind, storage.get_all_prompts, ret.
    apply truthy_Some in Hne. rewrite Hne.
    unfold utils.filter_prompts_by_collection.
    unfold members, storage.in_collection in Hm. rewrite Hm.
    destruct search as [q|]; [destruct (truthy (Some q))|]; reflexivity.
  - unfold api.get_collection, bind, storage.get_collection. now rewrite Hc.
  - rewrite delete_collection_unfold, Hc, Hm. simpl.
    rewrite delete_id by assumption. now destruct s.
Qed.

Lemma unknown_collection_has_no_prompts_witness :
  api.list_prompts (Some "ghost") None demo_store
    = (Return (api.mkPromptList [] 0), demo_store) /\
  api.get_collection "ghost" demo_store
    = (Raise (HTTPException 404 "Collection not found"), demo_store) /\
  api.delete_collection "ghost" demo_store
    = (Raise (HTTPException 404 "Collection not found"), demo_store).
Proof.
  apply (unknown_collection_has_no_prompts demo_store "ghost" None).
  - exists demo_requests. reflexivity.
  - discriminate.
  - vm_compute. reflexivity.
Defined.
